(** * sutrofm: the per-party coordinator

    A shallow embedding of [sutrofm/models.py] and of the management command
    [sutrofm/management/commands/party_manager.py], and the properties of the
    party manager that follow from them.

    Conventions of the embedding.
    - A [datetime] is an integer number of microseconds since the epoch and a
      [timedelta] an integer number of microseconds, which is the resolution
      (and the exactness) of Python's [datetime] arithmetic.
    - Every call of [now()] made during one tick reads the same instant, which
      is an argument of the functions that call it.
    - The database is a record of tables, each table a list of rows in storage
      order; only the row of the managed party is kept of the party table.
    - The channel-layer broadcasts are sends to an outside collaborator; they
      read the state and do not change it, and are left out.
    - A Python exception is an outcome [Raise]; the state reached when it was
      raised is kept, since what was written to the database stays written. *)

From Stdlib Require Import ZArith QArith List Lia Bool.
From Stdlib Require Import Permutation.
From Stdlib Require Import Floats Uint63.
Import ListNotations.
Local Open Scope Z_scope.

(** ** Python values *)

Definition datetime := Z.
Definition timedelta := Z.

(** [timedelta(seconds=s)], [timedelta(minutes=m)] *)
Definition seconds (s : Z) : timedelta := s * 1000000.
Definition minutes (m : Z) : timedelta := seconds (m * 60).

(** The float of a Python int; exact when its magnitude is below 2^53. *)
Definition float_of_Z (z : Z) : float :=
  if z <? 0 then PrimFloat.opp (PrimFloat.of_uint63 (Uint63.of_Z (- z)))
  else PrimFloat.of_uint63 (Uint63.of_Z z).

(** [timedelta.total_seconds()]: the microseconds divided by [10**6], a
    correctly rounded true division. The float of the microseconds is the
    integer itself below [2^53] microseconds, some 285 years, and there this
    is the one rounding Python makes. *)
Definition total_seconds (td : timedelta) : float :=
  PrimFloat.div (float_of_Z td) (float_of_Z 1000000).

(** A Python number: [get_track_position] returns ints on three of its paths
    and a float on the fourth. *)
Inductive pynum : Type :=
| PyInt (z : Z)
| PyFloat (f : float).

(** [a == b] for a number [a] and an int [b] *)
Definition py_eq (a : pynum) (b : Z) : bool :=
  match a with
  | PyInt z => z =? b
  | PyFloat f => PrimFloat.eqb f (float_of_Z b)
  end.



(** Truthiness of an [IntegerField(null=True)]: [None] and [0] are falsy. *)
Definition truthy (d : option Z) : bool :=
  match d with
  | None => false
  | Some z => negb (z =? 0)
  end.

Inductive exn : Type :=
| ZeroDivisionError
| AttributeError
| DoesNotExist
| ServiceError.

Inductive outcome (A : Type) : Type :=
| Ok (a : A)
| Raise (e : exn).
Arguments Ok {A} a.
Arguments Raise {A} e.

(** ** The data model *)

Definition UUID := Z.

Record UserVote : Type := {
  vote_user : Z;
  vote_queue_item : Z;
  value : Z;
  is_skip : bool
}.

Record UserPartyPresence : Type := {
  presence_user : Z;
  presence_party : Z;
  last_check_in : datetime
}.

Record QueueItem : Type := {
  item_id : Z;
  identifier : Z;
  playing_start_time : option datetime;
  duration_ms : option Z;
  item_user : Z;
  item_party : Z
}.

(** The row of a party in the database: the playing item is a foreign key. *)
Record PartyRow : Type := {
  row_id : Z;
  row_playing_item : option Z;
  row_last_manager_uuid : option UUID;
  row_last_manager_check_in : option datetime
}.

(** The [Party] object the command holds: the playing item is the related
    object itself. *)
Record Party : Type := {
  party_id : Z;
  playing_item : option QueueItem;
  last_manager_uuid : option UUID;
  last_manager_check_in : option datetime
}.

Record DB : Type := {
  db_party : PartyRow;
  db_items : list QueueItem;
  db_votes : list UserVote;
  db_presences : list UserPartyPresence
}.

(** ** models.py *)

Definition MAX_MANAGER_CHECK_IN_WAIT : timedelta := seconds 10.

(** [Party.needs_new_manager] *)
Definition needs_new_manager (now : datetime) (p : Party) : bool :=
  match last_manager_check_in p with
  | None => true
  | Some t => MAX_MANAGER_CHECK_IN_WAIT <? now - t
  end.

(** [Party.user_count]: the users joined to the party through the presence
    table, one per presence row. *)
Definition user_count (d : DB) (party : Z) : Z :=
  Z.of_nat (length (filter (fun p => presence_party p =? party) (db_presences d))).

(** The votes of an item, [self.votes]. *)
Definition votes_of (d : DB) (item : Z) : list UserVote :=
  filter (fun v => vote_queue_item v =? item) (db_votes d).

Definition sum_values (vs : list UserVote) : Z :=
  fold_right Z.add 0 (map value vs).

(** [Sum('value')] over the votes of an item: SQL's SUM of no row is NULL. *)
Definition Sum_value (d : DB) (item : Z) : option Z :=
  match votes_of d item with
  | [] => None
  | vs => Some (sum_values vs)
  end.

(** [QueueItem.vote_score]: [... ['vote_sum'] or 0] *)
Definition vote_score (d : DB) (it : QueueItem) : Z :=
  match Sum_value d (item_id it) with
  | Some s => if s =? 0 then 0 else s
  | None => 0
  end.

(** [QueueItem.get_track_position] *)
Definition get_track_position (now : datetime) (it : QueueItem) : pynum * Z :=
  if negb (truthy (duration_ms it)) then (PyInt 0, 0)
  else
    let d := match duration_ms it with Some d => d | None => 0 end in
    match playing_start_time it with
    | None => (PyInt 0, d)
    | Some t =>
        let position := now - t in
        if d * 1000 <? position then (PyInt d, d)
        else (PyFloat (PrimFloat.mul (total_seconds position) (float_of_Z 1000)), d)
    end.

(** [Count(Case(When(is_skip=True, then=Value(1))))] over the votes of an item *)
Definition skip_count (d : DB) (item : Z) : Z :=
  Z.of_nat (length (filter is_skip (votes_of d item))).

(** [QueueItem.should_skip]: [skip_count > (user_count / 2)], a true division.
    Halving a count is exact in floating point, and Python compares an int
    with a float by value, so the comparison is the one of the rationals. *)
Definition should_skip (d : DB) (it : QueueItem) : bool :=
  let user_count := user_count d (item_party it) in
  let skip_count := skip_count d (item_id it) in
  negb (Qle_bool (inject_Z skip_count) (inject_Z user_count / 2)%Q).

(** *** The vote-ordered queue *)

(** [ORDER BY score DESC]: where a NULL score sorts is the database's choice.
    PostgreSQL and Oracle put NULLs first in a descending order, SQLite and
    MySQL put them last; the backend is a parameter of the queue. *)
Inductive backend : Type :=
| NullsFirst
| NullsLast.

(** [score_before b x y]: a row of score [x] may stand before a row of score
    [y] in the descending order of backend [b]. *)
Definition score_before (b : backend) (x y : option Z) : bool :=
  match x, y with
  | Some a, Some c => c <=? a
  | None, None => true
  | None, Some _ => match b with NullsFirst => true | NullsLast => false end
  | Some _, None => match b with NullsFirst => false | NullsLast => true end
  end.

(** The rows with their annotation [score], ordered: an insertion sort that
    keeps the storage order of rows of equal score. *)
Fixpoint insert_by_score (b : backend) (x : QueueItem * option Z)
    (l : list (QueueItem * option Z)) : list (QueueItem * option Z) :=
  match l with
  | [] => [x]
  | y :: l' =>
      if score_before b (snd x) (snd y) then x :: l
      else y :: insert_by_score b x l'
  end.

Definition order_by_score_desc (b : backend) (l : list (QueueItem * option Z))
    : list (QueueItem * option Z) :=
  fold_right (insert_by_score b) [] l.

(** [VoteOrderedQueueManager.get_queryset] *)
Definition get_queryset (b : backend) (d : DB) : list (QueueItem * option Z) :=
  let queryset :=
    filter (fun it => match playing_start_time it with None => true | Some _ => false end)
           (db_items d) in
  let queryset := map (fun it => (it, Sum_value d (item_id it))) queryset in
  order_by_score_desc b queryset.

(** [Party.queue]: [QueueItem.voted_objects.filter(party=self)] *)
Definition queue (b : backend) (d : DB) (party : Z) : list QueueItem :=
  map fst (filter (fun r => item_party (fst r) =? party) (get_queryset b d)).

(** [QueueItem.get_next]: [QueueItem.voted_objects.filter(party=party).first()] *)
Definition get_next (b : backend) (d : DB) (party : Z) : option QueueItem :=
  hd_error (queue b d party).

(** *** Writes to the database *)

Definition set_items (d : DB) (items : list QueueItem) : DB :=
  {| db_party := db_party d; db_items := items;
     db_votes := db_votes d; db_presences := db_presences d |}.

(** [Model.save] of a queue item that has a primary key: the row of that key
    is updated, and inserted when no row has it. *)
Definition save_item (it : QueueItem) (d : DB) : DB :=
  if existsb (fun r => item_id r =? item_id it) (db_items d)
  then set_items d (map (fun r => if item_id r =? item_id it then it else r) (db_items d))
  else set_items d (db_items d ++ [it]).

(** [Model.delete] of a queue item: its votes go with it ([on_delete=CASCADE])
    and a party that was playing it plays nothing ([on_delete=SET_NULL]). *)
Definition delete_item (item : Z) (d : DB) : DB :=
  {| db_party :=
       let r := db_party d in
       match row_playing_item r with
       | Some i =>
           if i =? item
           then {| row_id := row_id r; row_playing_item := None;
                   row_last_manager_uuid := row_last_manager_uuid r;
                   row_last_manager_check_in := row_last_manager_check_in r |}
           else r
       | None => r
       end;
     db_items := filter (fun r => negb (item_id r =? item)) (db_items d);
     db_votes := filter (fun v => negb (vote_queue_item v =? item)) (db_votes d);
     db_presences := db_presences d |}.

(** [Model.save] of the party: the fields of the object are written to its row. *)
Definition save_party (p : Party) (d : DB) : DB :=
  {| db_party :=
       {| row_id := party_id p;
          row_playing_item := option_map item_id (playing_item p);
          row_last_manager_uuid := last_manager_uuid p;
          row_last_manager_check_in := last_manager_check_in p |};
     db_items := db_items d;
     db_votes := db_votes d;
     db_presences := db_presences d |}.

(** ** party_manager.py *)

Definition USER_CHECK_IN_FREQUENCY : timedelta := minutes 1.

(** The command object together with the database it talks to. *)
Record World : Type := {
  party : Party;
  manager_uuid : UUID;
  keep_running : bool;
  db : DB
}.

Definition set_party (w : World) (p : Party) : World :=
  {| party := p; manager_uuid := manager_uuid w;
     keep_running := keep_running w; db := db w |}.

Definition set_db (w : World) (d : DB) : World :=
  {| party := party w; manager_uuid := manager_uuid w;
     keep_running := keep_running w; db := d |}.

Definition set_keep_running (w : World) (k : bool) : World :=
  {| party := party w; manager_uuid := manager_uuid w;
     keep_running := k; db := db w |}.

Definition set_playing_item (p : Party) (it : option QueueItem) : Party :=
  {| party_id := party_id p; playing_item := it;
     last_manager_uuid := last_manager_uuid p;
     last_manager_check_in := last_manager_check_in p |}.

(** Commands: they run in a world and leave a world, also when they raise. *)
Definition M (A : Type) : Type := World -> outcome A * World.

Definition ret {A : Type} (a : A) : M A := fun w => (Ok a, w).

Definition raise {A : Type} (e : exn) : M A := fun w => (Raise e, w).

Definition bind {A B : Type} (m : M A) (k : A -> M B) : M B :=
  fun w =>
    match m w with
    | (Ok a, w') => k a w'
    | (Raise e, w') => (Raise e, w')
    end.

Notation "x <- m ;; k" := (bind m (fun x => k))
  (at level 61, m at next level, right associativity).
Notation "m ;;; k" := (bind m (fun _ => k))
  (at level 61, right associativity).

Definition get : M World := fun w => (Ok w, w).
Definition modify (f : World -> World) : M unit := fun w => (Ok tt, f w).

Section Manager.

(** The backend of the store and the track-duration lookup of the metadata
    service, [get_track_duration]: it answers with a duration, possibly none,
    or fails. *)
Variable backend_of_store : backend.
Variable get_track_duration : Z -> outcome (option Z).

(** [QueueItem.start_playing], on the item object [it]; the object as saved
    is returned. *)
Definition start_playing (now : datetime) (it : QueueItem) : M QueueItem :=
  duration <- (if negb (truthy (duration_ms it))
               then match get_track_duration (identifier it) with
                    | Ok d => ret d
                    | Raise e => raise e
                    end
               else ret (duration_ms it)) ;;
  let it' := {| item_id := item_id it; identifier := identifier it;
                playing_start_time := Some now; duration_ms := duration;
                item_user := item_user it; item_party := item_party it |} in
  modify (fun w => set_db w (save_item it' (db w))) ;;;
  ret it'.

(** [Party.play_next_queue_item], on the party object of the command *)
Definition play_next_queue_item (now : datetime) : M unit :=
  w <- get ;;
  let prev_item := playing_item (party w) in
  let next := get_next backend_of_store (db w) (party_id (party w)) in
  modify (fun w => set_party w (set_playing_item (party w) next)) ;;;
  match prev_item with
  | Some prev => modify (fun w => set_db w (delete_item (item_id prev) (db w)))
  | None => ret tt
  end ;;;
  match next with
  | Some it =>
      it' <- start_playing now it ;;
      modify (fun w => set_party w (set_playing_item (party w) (Some it')))
  | None => ret tt
  end ;;;
  modify (fun w => set_db w (save_party (party w) (db w))).

(** [Model.refresh_from_db] of the party: its fields are read again from its
    row, and the playing item is the row its foreign key names. Django
    fetches that row at the first read of [playing_item], which is in
    [update_track], before anything is written; a foreign key without row
    raises there, and here. *)
Definition refresh_from_db : M unit :=
  w <- get ;;
  let r := db_party (db w) in
  item <- match row_playing_item r with
          | None => ret None
          | Some i =>
              match find (fun it => item_id it =? i) (db_items (db w)) with
              | Some it => ret (Some it)
              | None => raise DoesNotExist
              end
          end ;;
  modify (fun w => set_party w
    {| party_id := row_id r; playing_item := item;
       last_manager_uuid := row_last_manager_uuid r;
       last_manager_check_in := row_last_manager_check_in r |}).

(** [Command.update_track]. The logged message divides the position by the
    duration: it raises when the duration is zero. *)
Definition update_track (now : datetime) : M unit :=
  w <- get ;;
  let queue_size := length (queue backend_of_store (db w) (party_id (party w))) in
  match playing_item (party w), queue_size with
  | None, O => ret tt
  | _, _ =>
      match playing_item (party w) with
      | None => play_next_queue_item now
      | Some _ => ret tt
      end ;;;
      w <- get ;;
      match playing_item (party w) with
      | None => raise AttributeError
      | Some item =>
          let '(position_ms, duration_ms) := get_track_position now item in
          (if duration_ms =? 0 then raise ZeroDivisionError else ret tt) ;;;
          if py_eq position_ms duration_ms || should_skip (db w) item
          then play_next_queue_item now
          else ret tt
      end
  end.

(** The presences [prune_users] deletes are those that checked in before
    [now() - USER_CHECK_IN_FREQUENCY]. *)
Definition stale (now : datetime) (party : Z) (p : UserPartyPresence) : bool :=
  (presence_party p =? party) && (last_check_in p <? now - USER_CHECK_IN_FREQUENCY).

(** [Command.prune_users] *)
Definition prune_users (now : datetime) : M unit :=
  modify (fun w =>
    set_db w
      {| db_party := db_party (db w); db_items := db_items (db w);
         db_votes := db_votes (db w);
         db_presences :=
           filter (fun p => negb (stale now (party_id (party w)) p))
                  (db_presences (db w)) |}).

(** [Command.update_party_manager_timestamp] *)
Definition update_party_manager_timestamp (now : datetime) : M unit :=
  modify (fun w => set_party w
    {| party_id := party_id (party w); playing_item := playing_item (party w);
       last_manager_uuid := Some (manager_uuid w);
       last_manager_check_in := Some now |}).

(** [Command.maintain_party] *)
Definition maintain_party (now : datetime) : M unit :=
  refresh_from_db ;;;
  update_track now ;;;
  prune_users now ;;;
  update_party_manager_timestamp now ;;;
  modify (fun w => set_db w (save_party (party w) (db w))).


(** [Command.other_manager_owns_party] *)
Definition other_manager_owns_party (w : World) : bool :=
  match last_manager_uuid (party w) with
  | Some u => negb (manager_uuid w =? u)
  | None => true
  end.

(** [Command.should_keep_running] *)
Definition should_keep_running (w : World) : bool :=
  negb (user_count (db w) (party_id (party w)) =? 0)
  && negb (other_manager_owns_party w).

(** One turn of the loop of [Command.run]: the body of the [try], with the
    handler that logs the exception and goes on. *)
Definition tick (now : datetime) (w : World) : World :=
  match maintain_party now w with
  | (Ok _, w') => set_keep_running w' (should_keep_running w')
  | (Raise _, w') => w'
  end.

(** [Command.run]: the loop runs while [keep_running] holds; [clock n] is the
    instant of the turn numbered [n]. The result is the world the loop leaves
    and the number of turns it made, or nothing when the turns allowed by
    [fuel] did not see it stop. *)
Fixpoint run (fuel : nat) (clock : nat -> datetime) (n : nat) (w : World)
    : option (World * nat) :=
  if keep_running w then
    match fuel with
    | O => None
    | S fuel' => run fuel' clock (S n) (tick (clock n) w)
    end
  else Some (w, n).

(** The object [Party.objects.get(id=party_id)] returns for the row of the
    party. The playing item of a party object is fetched when it is first
    read; [handle] does not read it, and the first turn reads the party
    again: the object holds the row its foreign key names, if there is one. *)
Definition load_party (d : DB) : Party :=
  let r := db_party d in
  {| party_id := row_id r;
     playing_item :=
       match row_playing_item r with
       | Some i => find (fun it => item_id it =? i) (db_items d)
       | None => None
       end;
     last_manager_uuid := row_last_manager_uuid r;
     last_manager_check_in := row_last_manager_check_in r |}.

(** [Command.handle] up to the call of [run]: a command fresh from [__init__]
    ([keep_running] set) takes [uuid] from [uuid.uuid4()], loads the party,
    and claims it or gives up. *)
Definition handle_claim (uuid : UUID) (now : datetime) (d : DB) : World :=
  let w := {| party := load_party d; manager_uuid := uuid;
              keep_running := true; db := d |} in
  if needs_new_manager now (party w)
  then snd (update_party_manager_timestamp now w)
  else set_keep_running w false.

(** [Command.handle] *)
Definition handle (fuel : nat) (uuid : UUID) (now : datetime)
    (clock : nat -> datetime) (d : DB) : option (World * nat) :=
  run fuel clock O (handle_claim uuid now d).

End Manager.

(** ** The rest of models.py *)

Definition set_presences (d : DB) (presences : list UserPartyPresence) : DB :=
  {| db_party := db_party d; db_items := db_items d;
     db_votes := db_votes d; db_presences := presences |}.

(** The presence rows [get_or_create(user=self, party=party)] looks up. *)
Definition presence_of (user party : Z) (p : UserPartyPresence) : bool :=
  (presence_user p =? user) && (presence_party p =? party).

(** [get_or_create] finds one row, or creates it, or raises
    [MultipleObjectsReturned] when several rows match. *)
Inductive check_in_outcome : Type :=
| CheckedIn (d : DB)
| MultipleObjectsReturned.

(** [User.check_in_to_party]: the presence of the user in the party is
    fetched or created, its [last_check_in] set to [now()], and saved. *)
Definition check_in_to_party (now : datetime) (user party : Z) (d : DB)
    : check_in_outcome :=
  let checked_in := {| presence_user := user; presence_party := party;
                       last_check_in := now |} in
  match filter (presence_of user party) (db_presences d) with
  | [] => CheckedIn (set_presences d (db_presences d ++ [checked_in]))
  | [_] =>
      CheckedIn (set_presences d
        (map (fun p => if presence_of user party p then checked_in else p)
             (db_presences d)))
  | _ :: _ :: _ => MultipleObjectsReturned
  end.

(** The object [QueueItem.to_object] returns; the user key is the name of the
    submitting user, read from the user table. *)
Record QueueEntry : Type := {
  track_key : Z;
  queue_entry_id : Z;
  submitter : Z;
  upvotes : Z;
  downvotes : Z;
  user_key : Z
}.

Section Payloads.

(** [user.username], by user id. *)
Variable username : Z -> Z.

(** [QueueItem.to_object] *)
Definition to_object (d : DB) (it : QueueItem) : QueueEntry :=
  {| track_key := identifier it;
     queue_entry_id := item_id it;
     submitter := item_user it;
     upvotes := sum_values (filter (fun vote => 0 <? value vote)
                                   (votes_of d (item_id it)));
     downvotes := sum_values (filter (fun vote => value vote <? 0)
                                     (votes_of d (item_id it)));
     user_key := username (item_user it) |}.

(** [Party.get_queue_state_payload] *)
Definition get_queue_state_payload (b : backend) (d : DB) (party : Z)
    : list QueueEntry :=
  map (to_object d) (queue b d party).

End Payloads.

(** ** Relations between the worlds of a command *)

(** A command respects [R] when [R] relates the world it starts in to the
    world it leaves, whatever its outcome. *)
Definition respects (R : World -> World -> Prop) {A : Type} (m : M A) : Prop :=
  forall w o w', m w = (o, w') -> R w w'.

(** The frame of the playback commands: they leave the identity of the
    manager, the flag of the loop, the presences and the identity of the
    party as they found them. *)
Definition frame (w w' : World) : Prop :=
  manager_uuid w' = manager_uuid w /\
  keep_running w' = keep_running w /\
  db_presences (db w') = db_presences (db w) /\
  party_id (party w') = party_id (party w).

(** The end of a turn that did not raise: prune, renew, save. *)
Definition end_of_turn (now : datetime) (w1 : World) : World :=
  let w2 := snd (prune_users now w1) in
  let w3 := snd (update_party_manager_timestamp now w2) in
  set_db w3 (save_party (party w3) (db w3)).

(** Every row of [items'] continues a row of [items], and keeps the
    timestamp that row had. *)
Definition start_times_kept (items items' : list QueueItem) : Prop :=
  forall r', In r' items' ->
    exists r, In r items /\ item_id r = item_id r' /\
              forall t, playing_start_time r = Some t ->
                        playing_start_time r' = Some t.

Definition unique_ids (d : DB) : Prop := NoDup (map item_id (db_items d)).

(** Primary keys stay unique and timestamps stay as set. *)
Definition kept (w w' : World) : Prop :=
  unique_ids (db w) ->
  unique_ids (db w') /\ start_times_kept (db_items (db w)) (db_items (db w')).

(** A list of annotated rows is in the order of backend [b] when each row may
    stand before all the rows that follow it. *)
Fixpoint in_score_order (b : backend) (l : list (QueueItem * option Z)) : Prop :=
  match l with
  | [] => True
  | r :: l' =>
      (forall r', In r' l' -> score_before b (snd r) (snd r') = true) /\
      in_score_order b l'
  end.


(** The item the party object plays, if any, is a stored row. *)
Definition playing_item_stored (w : World) : Prop :=
  forall it, playing_item (party w) = Some it -> In it (db_items (db w)).

(** A queued item of party [p]: an item of the party that was never started. *)
Definition is_queued_in (p : Z) (it : QueueItem) : bool :=
  match playing_start_time it with None => true | Some _ => false end
  && (item_party it =? p).

(** Every vote of [w'] is a vote of [w]. *)
Definition votes_come_from (w w' : World) : Prop :=
  forall v, In v (db_votes (db w')) -> In v (db_votes (db w)).

(** The lease, owner and heartbeat, as a row stores it and as a party object
    holds it. *)
Definition lease_of_row (r : PartyRow) : option UUID * option datetime :=
  (row_last_manager_uuid r, row_last_manager_check_in r).

Definition lease_of (p : Party) : option UUID * option datetime :=
  (last_manager_uuid p, last_manager_check_in p).

(** A command that starts with the stored lease on its party object leaves
    the stored lease as it was, and on its party object still. *)
Definition lease_kept (w w' : World) : Prop :=
  lease_of (party w) = lease_of_row (db_party (db w)) ->
  lease_of (party w') = lease_of_row (db_party (db w')) /\
  lease_of_row (db_party (db w')) = lease_of_row (db_party (db w)).

(** ** Sample states *)

(** Presence rows of party 1 for [users], all checked in at [t]. *)
Definition check_ins (t : datetime) (users : list Z) : list UserPartyPresence :=
  map (fun u => {| presence_user := u; presence_party := 1; last_check_in := t |})
      users.

(** Skip votes of [users] on [item], and a vote of weight [v] of user [u]. *)
Definition skips (item : Z) (users : list Z) : list UserVote :=
  map (fun u => {| vote_user := u; vote_queue_item := item;
                   value := 0; is_skip := true |})
      users.

Definition vote (u item v : Z) : UserVote :=
  {| vote_user := u; vote_queue_item := item; value := v; is_skip := false |}.

(** A queue item of party 1. *)
Definition track (id : Z) (start : option datetime) (duration : option Z)
    : QueueItem :=
  {| item_id := id; identifier := id; playing_start_time := start;
     duration_ms := duration; item_user := 1; item_party := 1 |}.

(** The row of party 1. *)
Definition party_row (playing : option Z) (owner : option UUID)
    (heartbeat : option datetime) : PartyRow :=
  {| row_id := 1; row_playing_item := playing;
     row_last_manager_uuid := owner; row_last_manager_check_in := heartbeat |}.

(** Five users present, three of them voting to skip item 7; four users
    present, two of them voting to skip it. *)
Definition three_of_five : DB :=
  {| db_party := party_row (Some 7) None None;
     db_items := [track 7 (Some 0) (Some 180000)];
     db_votes := skips 7 [1; 2; 3];
     db_presences := check_ins 0 [1; 2; 3; 4; 5] |}.

Definition two_of_four : DB :=
  {| db_party := party_row (Some 7) None None;
     db_items := [track 7 (Some 0) (Some 180000)];
     db_votes := skips 7 [1; 2];
     db_presences := check_ins 0 [1; 2; 3; 4] |}.

(** Item 7 is playing and item 8 is queued. Users 7 and 8 vote item 7 up and
    user 9 votes it down, none of them to skip it; the users [skippers] vote
    to skip it; users 1 to 5 vote to skip item 8. The users [users] are
    present in party 1, and users 1, 2 and 3 in party 2 as well. *)
Definition mixed_votes (skippers users : list Z) : DB :=
  {| db_party := party_row (Some 7) None None;
     db_items := [track 7 (Some 0) (Some 180000); track 8 None (Some 200000)];
     db_votes := [vote 7 7 1; vote 8 7 1; vote 9 7 (-1)] ++ skips 7 skippers
                 ++ skips 8 [1; 2; 3; 4; 5];
     db_presences :=
       check_ins 0 users ++
       map (fun u => {| presence_user := u; presence_party := 2;
                        last_check_in := 0 |})
           [1; 2; 3] |}.

(** Two queued items: item 1 has one vote, of weight [v], and item 2 has none. *)
Definition voted_and_unvoted (v : Z) : DB :=
  {| db_party := party_row None None None;
     db_items := [track 1 None (Some 180000); track 2 None (Some 200000)];
     db_votes := [vote 1 1 v];
     db_presences := check_ins 0 [1] |}.

(** A running command of manager [uuid] on database [d]; its party object is
    the one of an earlier turn, which the next turn reads again. *)
Definition command_on (uuid : UUID) (d : DB) : World :=
  {| party := {| party_id := 1; playing_item := None;
                 last_manager_uuid := Some uuid; last_manager_check_in := None |};
     manager_uuid := uuid; keep_running := true; db := d |}.

(** The metadata service, out of reach. *)
Definition no_service (_ : Z) : outcome (option Z) := Raise ServiceError.

(** The instant of the sample turns, a hundred seconds after the epoch. *)
Definition the_instant : datetime := seconds 100.

(** Manager 2 has taken the party over one second ago; one user is present. *)
Definition taken_over : DB :=
  {| db_party := party_row None (Some 2) (Some (seconds 99));
     db_items := [];
     db_votes := [];
     db_presences := check_ins (seconds 99) [1] |}.

(** Item 7 is playing and its duration is zero; three of the four users
    present vote to skip it. *)
Definition zero_duration : DB :=
  {| db_party := party_row (Some 7) (Some 1) (Some (seconds 99));
     db_items := [track 7 (Some (seconds 90)) (Some 0)];
     db_votes := skips 7 [1; 2; 3];
     db_presences := check_ins (seconds 99) [1; 2; 3; 4] |}.

(** Item 7 has been playing for ten of its 180 seconds; users 1 and 2 vote to
    skip it; user 1 is present, and the presences of users 2, 3 and 4 are
    stale. *)
Definition stale_majority : DB :=
  {| db_party := party_row (Some 7) (Some 1) (Some (seconds 99));
     db_items := [track 7 (Some (seconds 90)) (Some 180000)];
     db_votes := skips 7 [1; 2];
     db_presences := check_ins (seconds 99) [1] ++ check_ins 0 [2; 3; 4] |}.

(** Item 7 has played to its end, item 8 is queued, and item 9 was started
    once and is not the playing item. *)
Definition finished_and_queued : DB :=
  {| db_party := party_row (Some 7) (Some 1) (Some (seconds 99));
     db_items := [track 7 (Some (seconds 90)) (Some 1000);
                  track 8 None (Some 200000);
                  track 9 (Some (seconds 50)) (Some 1000)];
     db_votes := [];
     db_presences := check_ins (seconds 99) [1] |}.

(** Users 1 and 2 are present in party 1 and user 1 in party 2. *)
Definition two_parties : DB :=
  {| db_party := party_row None None None;
     db_items := [];
     db_votes := [];
     db_presences := check_ins (seconds 10) [1; 2] ++
                     [{| presence_user := 1; presence_party := 2;
                         last_check_in := seconds 20 |}] |}.

(** * Properties *)

(** ** The lease *)

Lemma needs_new_manager_spec (now : datetime) (p : Party) :
  needs_new_manager now p = true <->
  last_manager_check_in p = None \/
  exists t, last_manager_check_in p = Some t /\ seconds 10 < now - t.
Proof.
  unfold needs_new_manager, MAX_MANAGER_CHECK_IN_WAIT.
  destruct (last_manager_check_in p) as [t|].
  - rewrite Z.ltb_lt. split.
    + intros H. right. exists t. split; [reflexivity | exact H].
    + intros [H | [t' [H1 H2]]]; [discriminate | ]. injection H1 as <-. exact H2.
  - split; [left | ]; reflexivity.
Qed.

(** What [handle] decides and where it writes: the loop is entered exactly
    when the stored heartbeat is absent or more than ten seconds old, and
    then the owner and the instant are set on the party object; the database
    is left as it was either way. *)
Lemma handle_claim_decision (uuid : UUID) (now : datetime) (d : DB) :
  db (handle_claim uuid now d) = d /\
  (keep_running (handle_claim uuid now d) = true <->
     row_last_manager_check_in (db_party d) = None \/
     exists t, row_last_manager_check_in (db_party d) = Some t /\
               seconds 10 < now - t) /\
  (keep_running (handle_claim uuid now d) = true ->
     last_manager_uuid (party (handle_claim uuid now d)) = Some uuid /\
     last_manager_check_in (party (handle_claim uuid now d)) = Some now).
Proof.
  pose proof (needs_new_manager_spec now (load_party d)) as Hspec.
  change (last_manager_check_in (load_party d))
    with (row_last_manager_check_in (db_party d)) in Hspec.
  unfold handle_claim. cbn [party].
  destruct (needs_new_manager now (load_party d)) eqn:Hneed; cbn.
  - repeat split; try easy. intros _. apply Hspec. reflexivity.
  - repeat split; try easy. intros H. apply Hspec in H. discriminate.
Qed.

Lemma handle_claim_keep_running (uuid : UUID) (now : datetime) (d : DB) :
  keep_running (handle_claim uuid now d) = needs_new_manager now (load_party d) /\
  db (handle_claim uuid now d) = d.
Proof.
  unfold handle_claim. cbn [party].
  destruct (needs_new_manager now (load_party d)); split; reflexivity.
Qed.

Lemma needs_new_manager_later (now now' : datetime) (p : Party) :
  now <= now' -> needs_new_manager now p = true ->
  needs_new_manager now' p = true.
Proof.
  unfold needs_new_manager. destruct (last_manager_check_in p) as [t|];
    [ | reflexivity].
  rewrite !Z.ltb_lt. lia.
Qed.

(** C10. A heartbeat exactly ten seconds old still holds the lease:
    [needs_new_manager] answers no, and a claim made at that instant fails,
    leaving the party object as loaded. *)
Theorem needs_new_manager_false_at_threshold (uuid : UUID) (now : datetime)
    (d : DB) :
  row_last_manager_check_in (db_party d) = Some (now - MAX_MANAGER_CHECK_IN_WAIT) ->
  needs_new_manager now (load_party d) = false /\
  keep_running (handle_claim uuid now d) = false /\
  party (handle_claim uuid now d) = load_party d.
Proof.
  intros Hhb.
  assert (Hneed : needs_new_manager now (load_party d) = false).
  { unfold needs_new_manager.
    change (last_manager_check_in (load_party d))
      with (row_last_manager_check_in (db_party d)).
    rewrite Hhb. apply Z.ltb_ge.
    unfold MAX_MANAGER_CHECK_IN_WAIT, seconds. lia. }
  split; [exact Hneed | ].
  unfold handle_claim. cbn [party]. rewrite Hneed. split; reflexivity.
Qed.

Lemma needs_new_manager_false_at_threshold_witness :
  keep_running (handle_claim 3 (seconds 109) taken_over) = false /\
  last_manager_uuid (party (handle_claim 3 (seconds 109) taken_over)) = Some 2.
Proof.
  destruct (needs_new_manager_false_at_threshold 3 (seconds 109) taken_over
              eq_refl) as (_ & Hkeep & Hparty).
  split; [exact Hkeep | ]. rewrite Hparty. reflexivity.
Defined.

(** ** The loop *)

(** C8. When the claim made at startup fails, [handle] returns at once: the
    loop makes no turn, whatever the number of turns allowed, and the
    database and the party object are as they were loaded. *)
Theorem handle_stops_without_tick_when_claim_fails (b : backend)
    (svc : Z -> outcome (option Z)) (fuel : nat) (uuid : UUID)
    (now : datetime) (clock : nat -> datetime) (d : DB) :
  keep_running (handle_claim uuid now d) = false ->
  handle b svc fuel uuid now clock d = Some (handle_claim uuid now d, O) /\
  db (handle_claim uuid now d) = d /\
  party (handle_claim uuid now d) = load_party d.
Proof.
  intros Hkeep. unfold handle. split.
  - destruct fuel; cbn; rewrite Hkeep; reflexivity.
  - revert Hkeep. unfold handle_claim. cbn [party].
    destruct (needs_new_manager now (load_party d)); cbn.
    + discriminate.
    + intros _. split; reflexivity.
Qed.

Lemma handle_stops_without_tick_when_claim_fails_witness :
  handle NullsLast no_service 3 1 the_instant (fun _ => the_instant) taken_over
    = Some (handle_claim 1 the_instant taken_over, O) /\
  db (handle_claim 1 the_instant taken_over) = taken_over.
Proof.
  destruct (handle_stops_without_tick_when_claim_fails NullsLast no_service
              3 1 the_instant (fun _ => the_instant) taken_over eq_refl)
    as (Hhandle & Hdb & _).
  split; [exact Hhandle | exact Hdb].
Defined.

(** ** Votes *)

Lemma Qhalf_lt_iff (n k : Z) :
  (inject_Z n / 2 < inject_Z k)%Q <-> n < 2 * k.
Proof.
  unfold Qlt, Qdiv, Qmult, Qinv, inject_Z. cbn [Qnum Qden Pos.mul].
  change (Z.pos (1 * 2)) with 2. lia.
Qed.

Lemma should_skip_true_iff (d : DB) (it : QueueItem) :
  should_skip d it = true <->
  (inject_Z (user_count d (item_party it)) / 2
     < inject_Z (skip_count d (item_id it)))%Q.
Proof.
  unfold should_skip. rewrite negb_true_iff. split.
  - intros H. apply Qnot_le_lt. intros Hle.
    apply Qle_bool_iff in Hle. congruence.
  - intros H. destruct (Qle_bool _ _) eqn:E; [ | reflexivity].
    apply Qle_bool_iff in E. apply Qlt_not_le in H. contradiction.
Qed.

(** The skip votes of an item, counted on the vote table: the votes on that
    item that are marked as skip votes. *)
Lemma skip_count_counts (d : DB) (item : Z) :
  skip_count d item =
  Z.of_nat (length (filter (fun v => (vote_queue_item v =? item) && is_skip v)
                           (db_votes d))).
Proof.
  unfold skip_count, votes_of.
  replace (filter is_skip (filter (fun v => vote_queue_item v =? item) (db_votes d)))
    with (filter (fun v => (vote_queue_item v =? item) && is_skip v) (db_votes d));
    [reflexivity | ].
  induction (db_votes d) as [|v l IH]; cbn; [reflexivity | ].
  destruct (vote_queue_item v =? item); cbn; [ | exact IH].
  destruct (is_skip v); [f_equal | ]; exact IH.
Qed.

(** C5. An item is to be skipped exactly when the skip votes cast on it
    exceed half of the presence rows of its party, the half taken as a
    fraction: votes that are not skip votes, votes on other items and
    presences in other parties do not count. Three skip votes of five users
    skip, and so do three of four; two skip votes of four users do not, nor
    do three votes of four users none of which is a skip vote. *)
Theorem should_skip_iff_strict_majority :
  (forall (d : DB) (it : QueueItem),
     should_skip d it = true <->
     (inject_Z (Z.of_nat (length (filter (fun p => presence_party p =? item_party it)
                                         (db_presences d)))) / 2
        < inject_Z (Z.of_nat (length (filter (fun v => (vote_queue_item v =? item_id it)
                                                       && is_skip v)
                                             (db_votes d)))))%Q) /\
  (user_count three_of_five 1 = 5 /\ skip_count three_of_five 7 = 3 /\
   should_skip three_of_five (track 7 (Some 0) (Some 180000)) = true) /\
  (user_count two_of_four 1 = 4 /\ skip_count two_of_four 7 = 2 /\
   (inject_Z 2 == inject_Z 4 / 2)%Q /\
   should_skip two_of_four (track 7 (Some 0) (Some 180000)) = false) /\
  (should_skip (mixed_votes [1; 2; 3] [1; 2; 3; 4; 5])
               (track 7 (Some 0) (Some 180000)) = true /\
   should_skip (mixed_votes [1; 2; 3] [1; 2; 3; 4])
               (track 7 (Some 0) (Some 180000)) = true /\
   should_skip (mixed_votes [1; 2] [1; 2; 3; 4])
               (track 7 (Some 0) (Some 180000)) = false /\
   should_skip (mixed_votes [] [1; 2; 3; 4])
               (track 7 (Some 0) (Some 180000)) = false).
Proof.
  split.
  - intros d it. rewrite should_skip_true_iff, skip_count_counts.
    unfold user_count. reflexivity.
  - split; [ | split]; repeat split; reflexivity.
Qed.

(** ** The position of the playing track *)

Lemma get_track_position_cases (now : datetime) (it : QueueItem) (d t : Z) :
  duration_ms it = Some d -> d <> 0 ->
  playing_start_time it = Some t ->
  get_track_position now it =
    if d * 1000 <? now - t then (PyInt d, d)
    else (PyFloat (PrimFloat.mul (total_seconds (now - t)) (float_of_Z 1000)), d).
Proof.
  intros Hd Hnz Ht. unfold get_track_position. rewrite Hd, Ht. cbn.
  destruct (d =? 0) eqn:E; [apply Z.eqb_eq in E; contradiction | reflexivity].
Qed.

(** *** The float arithmetic of the position

    [total_seconds() * 1000] is two roundings of the IEEE-754 binary64
    arithmetic, a division by [10**6] and a product by [1000]. The lemmas
    below follow the specification of the primitive floats ([SpecFloat]):
    the number of binary digits of a mantissa, the right shift that drops
    digits, and the rounding of a mantissa of at least 53 digits to 53. *)



























(** ** The queue *)

(** C6 fails on an item without votes. Its score, the sum of no vote, is 0,
    but in the ordered queue its [score] is NULL. Where NULLs come last, item
    1 with one vote of -1 is selected though item 2, without votes, has the
    highest score; where NULLs come first, item 2 without votes is selected
    though item 1, with one vote of +1, has the highest score. *)
Theorem get_next_misranks_unvoted_item :
  (get_next NullsLast (voted_and_unvoted (-1)) 1 = Some (track 1 None (Some 180000)) /\
   vote_score (voted_and_unvoted (-1)) (track 1 None (Some 180000)) = -1 /\
   vote_score (voted_and_unvoted (-1)) (track 2 None (Some 200000)) = 0) /\
  (get_next NullsFirst (voted_and_unvoted 1) 1 = Some (track 2 None (Some 200000)) /\
   vote_score (voted_and_unvoted 1) (track 1 None (Some 180000)) = 1 /\
   vote_score (voted_and_unvoted 1) (track 2 None (Some 200000)) = 0).
Proof.
  repeat split; reflexivity.
Qed.

(** ** Commands and the relations they respect *)

Lemma bind_inv {A B : Type} (m : M A) (k : A -> M B) (w w' : World)
    (o : outcome B) :
  bind m k w = (o, w') ->
  (exists a w1, m w = (Ok a, w1) /\ k a w1 = (o, w')) \/
  (exists e, m w = (Raise e, w') /\ o = Raise e).
Proof.
  unfold bind. destruct (m w) as [[a|e] w1]; intros H.
  - left. exists a, w1. split; [reflexivity | exact H].
  - right. exists e. injection H as <- <-. split; reflexivity.
Qed.

Section Respects.

(** A relation between the world a command starts in and the world it
    leaves, whatever its outcome. *)
Variable R : World -> World -> Prop.
Hypothesis R_refl : forall w, R w w.
Hypothesis R_trans : forall w1 w2 w3, R w1 w2 -> R w2 w3 -> R w1 w3.

Lemma respects_ret {A : Type} (a : A) : respects R (ret a).
Proof. intros w o w' H. injection H as _ <-. apply R_refl. Qed.

Lemma respects_raise {A : Type} (e : exn) : respects R (@raise A e).
Proof. intros w o w' H. injection H as _ <-. apply R_refl. Qed.

Lemma respects_get : respects R get.
Proof. intros w o w' H. injection H as _ <-. apply R_refl. Qed.

Lemma respects_modify (f : World -> World) :
  (forall w, R w (f w)) -> respects R (modify f).
Proof. intros Hf w o w' H. injection H as _ <-. apply Hf. Qed.

Lemma respects_bind {A B : Type} (m : M A) (k : A -> M B) :
  respects R m -> (forall a, respects R (k a)) -> respects R (bind m k).
Proof.
  intros Hm Hk w o w' H.
  apply bind_inv in H. destruct H as [(a & w1 & H1 & H2) | (e & H1 & _)].
  - apply (R_trans _ w1); [apply (Hm _ _ _ H1) | apply (Hk a _ _ _ H2)].
  - apply (Hm _ _ _ H1).
Qed.

Variable b : backend.
Variable svc : Z -> outcome (option Z).

Hypothesis R_set_party : forall w p, R w (set_party w p).
Hypothesis R_play_next : forall now, respects R (play_next_queue_item b svc now).

Lemma respects_refresh_from_db : respects R refresh_from_db.
Proof.
  unfold refresh_from_db.
  apply respects_bind; [apply respects_get | intros w0].
  apply respects_bind.
  - destruct (row_playing_item (db_party (db w0))) as [i|];
      [ | apply respects_ret].
    destruct (find _ _); [apply respects_ret | apply respects_raise].
  - intros item. apply respects_modify. intros w. apply R_set_party.
Qed.

Lemma respects_update_track (now : datetime) :
  respects R (update_track b svc now).
Proof.
  unfold update_track.
  apply respects_bind; [apply respects_get | intros w0].
  assert (Hrest : respects R
    (w <- get ;;
     match playing_item (party w) with
     | None => raise AttributeError
     | Some item =>
         let '(position_ms, duration_ms) := get_track_position now item in
         (if duration_ms =? 0 then raise ZeroDivisionError else ret tt) ;;;
         if py_eq position_ms duration_ms || should_skip (db w) item
         then play_next_queue_item b svc now
         else ret tt
     end)).
  { apply respects_bind; [apply respects_get | intros w1].
    destruct (playing_item (party w1)) as [item|]; [ | apply respects_raise].
    destruct (get_track_position now item) as [position_ms duration_ms].
    apply respects_bind.
    - destruct (duration_ms =? 0); [apply respects_raise | apply respects_ret].
    - intros _. destruct (py_eq _ _ || should_skip _ _);
        [apply R_play_next | apply respects_ret]. }
  destruct (playing_item (party w0)) as [item|].
  - apply respects_bind; [apply respects_ret | intros _; exact Hrest].
  - destruct (length _); [apply respects_ret | ].
    apply respects_bind; [apply R_play_next | intros _; exact Hrest].
Qed.

Hypothesis R_save_party : forall w, R w (set_db w (save_party (party w) (db w))).
Hypothesis R_prune_users : forall now, respects R (prune_users now).

Lemma respects_maintain_party (now : datetime) :
  respects R (maintain_party b svc now).
Proof.
  unfold maintain_party.
  apply respects_bind; [apply respects_refresh_from_db | intros _].
  apply respects_bind; [apply respects_update_track | intros _].
  apply respects_bind; [apply R_prune_users | intros _].
  apply respects_bind.
  - apply respects_modify. intros w. apply R_set_party.
  - intros _. apply respects_modify. exact R_save_party.
Qed.

End Respects.

(** *** What one call of [play_next_queue_item] does *)

Lemma play_next_queue_item_unfold (b : backend) (svc : Z -> outcome (option Z))
    (now : datetime) (w : World) :
  play_next_queue_item b svc now w =
    let next := get_next b (db w) (party_id (party w)) in
    let w1 := set_party w (set_playing_item (party w) next) in
    let w2 := match playing_item (party w) with
              | Some prev => set_db w1 (delete_item (item_id prev) (db w1))
              | None => w1
              end in
    match next with
    | None => (Ok tt, set_db w2 (save_party (party w2) (db w2)))
    | Some it =>
        match (if negb (truthy (duration_ms it)) then svc (identifier it)
               else Ok (duration_ms it)) with
        | Raise e => (Raise e, w2)
        | Ok duration =>
            let it' := {| item_id := item_id it; identifier := identifier it;
                          playing_start_time := Some now; duration_ms := duration;
                          item_user := item_user it; item_party := item_party it |} in
            let w3 := set_db w2 (save_item it' (db w2)) in
            let w4 := set_party w3 (set_playing_item (party w3) (Some it')) in
            (Ok tt, set_db w4 (save_party (party w4) (db w4)))
        end
    end.
Proof.
  unfold play_next_queue_item, start_playing, bind, get, modify, ret, raise.
  destruct (playing_item (party w)) as [prev|];
    (destruct (get_next b (db w) (party_id (party w))) as [it|]; cbn;
     [ | reflexivity];
     destruct (negb (truthy (duration_ms it)));
     [destruct (svc (identifier it)) | ]; reflexivity).
Qed.

Lemma save_item_presences (x : QueueItem) (d : DB) :
  db_presences (save_item x d) = db_presences d.
Proof. unfold save_item. destruct (existsb _ _); reflexivity. Qed.

Lemma save_item_votes (x : QueueItem) (d : DB) :
  db_votes (save_item x d) = db_votes d.
Proof. unfold save_item. destruct (existsb _ _); reflexivity. Qed.

Lemma save_item_In (x r : QueueItem) (d : DB) :
  In r (db_items (save_item x d)) -> r = x \/ In r (db_items d).
Proof.
  unfold save_item. destruct (existsb _ _); cbn.
  - rewrite in_map_iff. intros [r0 [Hr Hin]].
    destruct (item_id r0 =? item_id x); [left; congruence | right; congruence].
  - rewrite in_app_iff. cbn. intros [H | [H | []]]; [right; exact H | left; congruence].
Qed.

Lemma delete_item_In (i : Z) (r : QueueItem) (d : DB) :
  In r (db_items (delete_item i d)) -> In r (db_items d) /\ item_id r <> i.
Proof.
  cbn. rewrite filter_In. intros [Hin Hne]. split; [exact Hin | ].
  apply negb_true_iff, Z.eqb_neq in Hne. exact Hne.
Qed.

Lemma frame_refl (w : World) : frame w w.
Proof. repeat split. Qed.

Lemma frame_trans (w1 w2 w3 : World) : frame w1 w2 -> frame w2 w3 -> frame w1 w3.
Proof.
  unfold frame. intros (A1 & A2 & A3 & A4) (B1 & B2 & B3 & B4).
  repeat split; congruence.
Qed.

Lemma play_next_queue_item_frame (b : backend) (svc : Z -> outcome (option Z))
    (now : datetime) :
  respects frame (play_next_queue_item b svc now).
Proof.
  intros w o w'. rewrite play_next_queue_item_unfold. cbv zeta.
  destruct (get_next b (db w) (party_id (party w))) as [it|].
  - destruct (if negb (truthy (duration_ms it)) then svc (identifier it)
              else Ok (duration_ms it)) as [duration|e];
      intros H; injection H as _ <-;
      destruct (playing_item (party w)); unfold frame; cbn;
      rewrite ?save_item_presences; repeat split.
  - intros H; injection H as _ <-.
    destruct (playing_item (party w)); unfold frame; cbn; repeat split.
Qed.

Lemma update_track_frame (b : backend) (svc : Z -> outcome (option Z))
    (now : datetime) :
  respects frame (update_track b svc now).
Proof.
  apply respects_update_track.
  - exact frame_refl.
  - exact frame_trans.
  - apply play_next_queue_item_frame.
Qed.

Lemma refresh_from_db_inv (w w0 : World) (o : outcome unit) :
  refresh_from_db w = (o, w0) ->
  db w0 = db w /\ manager_uuid w0 = manager_uuid w /\
  keep_running w0 = keep_running w /\
  (o = Ok tt -> party_id (party w0) = row_id (db_party (db w)) /\
     (forall it, playing_item (party w0) = Some it -> In it (db_items (db w)))) /\
  (forall e, o = Raise e -> w0 = w).
Proof.
  unfold refresh_from_db, bind, get, modify, ret, raise.
  destruct (row_playing_item (db_party (db w))) as [i|].
  - destruct (find (fun it => item_id it =? i) (db_items (db w))) as [it|] eqn:Hfind;
      intros H; injection H as <- <-; cbn.
    + repeat split; try discriminate.
      intros it0 H0. injection H0 as <-. apply find_some in Hfind. apply Hfind.
    + repeat split; discriminate.
  - intros H; injection H as <- <-; cbn. repeat split; discriminate.
Qed.

(** *** What one turn does *)

Lemma maintain_party_inv (b : backend) (svc : Z -> outcome (option Z))
    (now : datetime) (w w' : World) (o : outcome unit) :
  maintain_party b svc now w = (o, w') ->
  (exists e, refresh_from_db w = (Raise e, w') /\ o = Raise e) \/
  (exists w0, refresh_from_db w = (Ok tt, w0) /\
     ((exists e, update_track b svc now w0 = (Raise e, w') /\ o = Raise e) \/
      (exists w1, update_track b svc now w0 = (Ok tt, w1) /\
                  o = Ok tt /\ w' = end_of_turn now w1))).
Proof.
  unfold maintain_party. intros H.
  apply bind_inv in H. destruct H as [([] & w0 & H0 & H) | (e & H0 & Ho)].
  - right. exists w0. split; [exact H0 | ].
    apply bind_inv in H. destruct H as [([] & w1 & H1 & H) | (e & H1 & Ho)].
    + right. exists w1. split; [exact H1 | ].
      unfold bind, prune_users, update_party_manager_timestamp, modify in H.
      injection H as <- <-. split; reflexivity.
    + left. exists e. split; assumption.
  - left. exists e. split; assumption.
Qed.

(** C3 fails: a playing item of unknown or zero duration stops the turn.
    [get_track_position] answers (0, 0) for it and the message [update_track]
    logs divides by that duration: the division raises before completion or
    skip votes are looked at, so the item is not advanced whatever its skip
    votes, and the rest of the turn (pruning, heartbeat, saving, the decision
    to go on) is not run. *)
Theorem update_track_raises_on_falsy_duration (b : backend)
    (svc : Z -> outcome (option Z)) (now : datetime) (w w0 : World)
    (it : QueueItem) :
  refresh_from_db w = (Ok tt, w0) ->
  playing_item (party w0) = Some it ->
  truthy (duration_ms it) = false ->
  get_track_position now it = (PyInt 0, 0) /\
  update_track b svc now w0 = (Raise ZeroDivisionError, w0) /\
  maintain_party b svc now w = (Raise ZeroDivisionError, w0) /\
  db w0 = db w /\
  tick b svc now w = w0.
Proof.
  intros Hrefresh Hitem Hfalsy.
  assert (Hpos : get_track_position now it = (PyInt 0, 0)).
  { unfold get_track_position. rewrite Hfalsy. reflexivity. }
  assert (Hupd : update_track b svc now w0 = (Raise ZeroDivisionError, w0)).
  { unfold update_track, bind, get, ret, raise. rewrite Hitem.
    cbv beta iota. rewrite Hitem. cbv beta iota. rewrite Hpos. reflexivity. }
  assert (Hturn : maintain_party b svc now w = (Raise ZeroDivisionError, w0)).
  { unfold maintain_party, bind at 1. rewrite Hrefresh.
    unfold bind at 1. rewrite Hupd. reflexivity. }
  repeat split; try assumption.
  - apply (refresh_from_db_inv _ _ _ Hrefresh).
  - unfold tick. rewrite Hturn. reflexivity.
Qed.

Lemma update_track_raises_on_falsy_duration_witness :
  should_skip zero_duration (track 7 (Some (seconds 90)) (Some 0)) = true /\
  In (track 7 (Some (seconds 90)) (Some 0))
     (db_items (db (tick NullsLast no_service the_instant
                         (command_on 1 zero_duration)))) /\
  update_track NullsLast no_service the_instant
      (snd (refresh_from_db (command_on 1 zero_duration)))
    = (Raise ZeroDivisionError, snd (refresh_from_db (command_on 1 zero_duration))).
Proof.
  pose proof (update_track_raises_on_falsy_duration NullsLast no_service
                the_instant (command_on 1 zero_duration)
                (snd (refresh_from_db (command_on 1 zero_duration)))
                (track 7 (Some (seconds 90)) (Some 0))
                eq_refl eq_refl eq_refl) as (_ & Hupd & _ & _ & Htick).
  split; [reflexivity | ]. split; [ | exact Hupd].
  rewrite Htick. left. reflexivity.
Defined.

(** C1 fails: the turn never finds the party owned by another manager. Every
    turn that does not raise has written this manager's identity and the
    instant over the stored owner and heartbeat before [should_keep_running]
    compares them, so [other_manager_owns_party] answers no and the loop goes
    on as long as a user is present. *)
Theorem maintain_party_overwrites_owner (b : backend)
    (svc : Z -> outcome (option Z)) (now : datetime) (w w' : World) :
  maintain_party b svc now w = (Ok tt, w') ->
  row_last_manager_uuid (db_party (db w')) = Some (manager_uuid w) /\
  row_last_manager_check_in (db_party (db w')) = Some now /\
  other_manager_owns_party w' = false /\
  keep_running (tick b svc now w) =
    negb (user_count (db w') (party_id (party w')) =? 0).
Proof.
  intros H. pose proof H as Hturn.
  apply maintain_party_inv in H.
  destruct H as [(e & _ & He) | (w0 & H0 & [(e & _ & He) | (w1 & H1 & _ & ->)])];
    try discriminate.
  apply refresh_from_db_inv in H0. destruct H0 as (_ & Hu0 & _).
  apply update_track_frame in H1. destruct H1 as (Hu1 & _).
  assert (Hother : other_manager_owns_party (end_of_turn now w1) = false).
  { unfold other_manager_owns_party. cbn. rewrite Z.eqb_refl. reflexivity. }
  repeat split.
  - cbn. congruence.
  - exact Hother.
  - unfold tick. rewrite Hturn. unfold should_keep_running.
    rewrite Hother. cbn [keep_running set_keep_running negb].
    apply andb_true_r.
Qed.

Lemma maintain_party_overwrites_owner_witness :
  row_last_manager_uuid (db_party taken_over) = Some 2 /\
  manager_uuid (command_on 1 taken_over) = 1 /\
  row_last_manager_uuid
    (db_party (db (tick NullsLast no_service the_instant (command_on 1 taken_over))))
    = Some 1 /\
  keep_running (tick NullsLast no_service the_instant (command_on 1 taken_over))
    = true.
Proof.
  pose proof (maintain_party_overwrites_owner NullsLast no_service the_instant
                (command_on 1 taken_over)
                (snd (maintain_party NullsLast no_service the_instant
                        (command_on 1 taken_over)))
                eq_refl) as (Howner & _ & _ & Hkeep).
  split; [reflexivity | ]. split; [reflexivity | ].
  split; [reflexivity | ]. rewrite Hkeep. reflexivity.
Defined.

(** ** Pruning and the skip check *)

Lemma should_skip_true_iff_lt (d : DB) (it : QueueItem) :
  should_skip d it = true <->
  user_count d (item_party it) < 2 * skip_count d (item_id it).
Proof.
  rewrite should_skip_true_iff. apply Qhalf_lt_iff.
Qed.


(** ** The playback-started timestamp *)

Lemma insert_by_score_In (b : backend) (x y : QueueItem * option Z)
    (l : list (QueueItem * option Z)) :
  In y (insert_by_score b x l) -> y = x \/ In y l.
Proof.
  induction l as [|z l IH]; cbn.
  - intros [H | []]. left. symmetry. exact H.
  - destruct (score_before b (snd x) (snd z)); cbn.
    + intros [H | H]; [left; symmetry; exact H | right; exact H].
    + intros [H | H]; [right; left; exact H | ].
      destruct (IH H) as [H' | H']; [left; exact H' | right; right; exact H'].
Qed.

Lemma order_by_score_desc_In (b : backend) (y : QueueItem * option Z)
    (l : list (QueueItem * option Z)) :
  In y (order_by_score_desc b l) -> In y l.
Proof.
  induction l as [|x l IH]; cbn; [tauto | ].
  intros H. apply insert_by_score_In in H.
  destruct H as [H | H]; [left; symmetry; exact H | right; exact (IH H)].
Qed.

(** The selected item is a stored row of the party that was never started. *)
Lemma get_next_queued (b : backend) (d : DB) (p : Z) (it : QueueItem) :
  get_next b d p = Some it ->
  In it (db_items d) /\ playing_start_time it = None /\ item_party it = p.
Proof.
  unfold get_next, queue. intros H.
  assert (Hin : In it (map fst (filter (fun r => item_party (fst r) =? p)
                                       (get_queryset b d)))).
  { destruct (map fst _) as [|x l]; [discriminate | ].
    injection H as ->. left. reflexivity. }
  apply in_map_iff in Hin. destruct Hin as [[it0 s] [Hfst Hin]].
  cbn in Hfst. subst it0.
  apply filter_In in Hin. destruct Hin as [Hin Hparty]. cbn in Hparty.
  unfold get_queryset in Hin. apply order_by_score_desc_In in Hin.
  apply in_map_iff in Hin. destruct Hin as [it0 [Heq Hin]].
  injection Heq as -> _.
  apply filter_In in Hin. destruct Hin as [Hin Hstart].
  repeat split.
  - exact Hin.
  - destruct (playing_start_time it); [discriminate | reflexivity].
  - apply Z.eqb_eq. exact Hparty.
Qed.

Lemma start_times_kept_refl (items : list QueueItem) :
  start_times_kept items items.
Proof. intros r Hr. exists r. repeat split; auto. Qed.

Lemma start_times_kept_sub (items items' : list QueueItem) :
  (forall r, In r items' -> In r items) -> start_times_kept items items'.
Proof. intros Hsub r Hr. exists r. repeat split; auto. Qed.

Lemma start_times_kept_trans (l1 l2 l3 : list QueueItem) :
  start_times_kept l1 l2 -> start_times_kept l2 l3 -> start_times_kept l1 l3.
Proof.
  intros H12 H23 r3 H3.
  destruct (H23 r3 H3) as (r2 & H2 & Hid2 & Ht2).
  destruct (H12 r2 H2) as (r1 & H1 & Hid1 & Ht1).
  exists r1. repeat split; [exact H1 | congruence | auto].
Qed.

Lemma kept_refl (w : World) : kept w w.
Proof. intros H. split; [exact H | apply start_times_kept_refl]. Qed.

Lemma kept_trans (w1 w2 w3 : World) : kept w1 w2 -> kept w2 w3 -> kept w1 w3.
Proof.
  intros H12 H23 H1. destruct (H12 H1) as [H2 K12].
  destruct (H23 H2) as [H3 K23].
  split; [exact H3 | exact (start_times_kept_trans _ _ _ K12 K23)].
Qed.


(** Rows kept from a table of unique keys have unique keys. *)
Lemma unique_ids_filter (keep : QueueItem -> bool) (items : list QueueItem) :
  NoDup (map item_id items) -> NoDup (map item_id (filter keep items)).
Proof.
  intros Hu. induction items as [|row items IH]; cbn in *; [constructor | ].
  apply NoDup_cons_iff in Hu. destruct Hu as [Hfresh Hu].
  destruct (keep row); cbn; [ | exact (IH Hu)].
  apply NoDup_cons; [ | exact (IH Hu)].
  rewrite in_map_iff. intros (row' & Hid & Hin).
  apply filter_In in Hin. apply Hfresh.
  rewrite in_map_iff. exists row'. split; [exact Hid | apply Hin].
Qed.


Lemma delete_item_unique_ids (i : Z) (d : DB) :
  unique_ids d -> unique_ids (delete_item i d).
Proof. unfold unique_ids. cbn. apply unique_ids_filter. Qed.

Lemma save_item_unique_ids (x : QueueItem) (d : DB) :
  unique_ids d -> unique_ids (save_item x d).
Proof.
  unfold unique_ids, save_item. intros H.
  destruct (existsb (fun r => item_id r =? item_id x) (db_items d)) eqn:E; cbn.
  - rewrite map_map.
    replace (map (fun r => item_id (if item_id r =? item_id x then x else r))
                 (db_items d))
      with (map item_id (db_items d)); [exact H | ].
    apply map_ext. intros r.
    destruct (item_id r =? item_id x) eqn:Er; [ | reflexivity].
    apply Z.eqb_eq in Er. exact Er.
  - rewrite map_app. cbn.
    assert (Hnotin : ~ In (item_id x) (map item_id (db_items d))).
    { intros Hin. apply in_map_iff in Hin. destruct Hin as [r [Hr Hin]].
      assert (existsb (fun r => item_id r =? item_id x) (db_items d) = true).
      { apply existsb_exists. exists r. split; [exact Hin | ].
        apply Z.eqb_eq. exact Hr. }
      congruence. }
    clear E. induction (map item_id (db_items d)) as [|a l IH]; cbn.
    + constructor; [intros [] | constructor].
    + inversion H as [|? ? Hna Hnd]; subst. constructor.
      * rewrite in_app_iff. cbn. intros [Hin | [Hin | []]]; [contradiction | ].
        apply Hnotin. left. symmetry. exact Hin.
      * apply IH; [exact Hnd | ]. intros Hin. apply Hnotin. right. exact Hin.
Qed.

Lemma play_next_queue_item_kept (b : backend) (svc : Z -> outcome (option Z))
    (now : datetime) :
  respects kept (play_next_queue_item b svc now).
Proof.
  intros w o w' H Hu. rewrite play_next_queue_item_unfold in H. cbv zeta in H.
  (* the database once the previous item is deleted *)
  set (d2 := match playing_item (party w) with
             | Some prev => delete_item (item_id prev) (db w)
             | None => db w
             end).
  assert (Hd2 : unique_ids d2 /\
                forall r, In r (db_items d2) -> In r (db_items (db w))).
  { unfold d2. destruct (playing_item (party w)) as [prev|].
    - split; [apply delete_item_unique_ids; exact Hu | ].
      intros r Hr. apply delete_item_In in Hr. apply Hr.
    - split; [exact Hu | auto]. }
  destruct Hd2 as [Hu2 Hsub2].
  destruct (get_next b (db w) (party_id (party w))) as [it|] eqn:Hnext.
  - destruct (get_next_queued _ _ _ _ Hnext) as (Hin & Hstart & _).
    destruct (if negb (truthy (duration_ms it)) then svc (identifier it)
              else Ok (duration_ms it)) as [duration|e].
    + injection H as _ <-.
      match goal with
      | |- unique_ids (db ?W) /\ _ =>
          assert (Hitems : exists x, item_id x = item_id it /\
                             db_items (db W) = db_items (save_item x d2))
      end.
      { eexists. split; [ | unfold d2; destruct (playing_item (party w)); reflexivity].
        reflexivity. }
      destruct Hitems as (x & Hx & Hitems).
      unfold unique_ids. rewrite Hitems. split.
      * apply save_item_unique_ids. exact Hu2.
      * intros r' Hr'. apply save_item_In in Hr'. destruct Hr' as [-> | Hr'].
        -- exists it. repeat split; [exact Hin | congruence | ].
           intros t Ht. congruence.
        -- exists r'. repeat split; auto.
    + injection H as _ <-.
      match goal with
      | |- unique_ids (db ?W) /\ _ =>
          assert (Hitems : db_items (db W) = db_items d2)
      end.
      { unfold d2. destruct (playing_item (party w)); reflexivity. }
      unfold unique_ids. rewrite Hitems.
      split; [exact Hu2 | apply start_times_kept_sub; exact Hsub2].
  - injection H as _ <-.
    match goal with
    | |- unique_ids (db ?W) /\ _ =>
        assert (Hitems : db_items (db W) = db_items d2)
    end.
    { unfold d2. destruct (playing_item (party w)); reflexivity. }
    unfold unique_ids. rewrite Hitems.
    split; [exact Hu2 | apply start_times_kept_sub; exact Hsub2].
Qed.


Lemma update_track_kept (b : backend) (svc : Z -> outcome (option Z))
    (now : datetime) :
  respects kept (update_track b svc now).
Proof.
  apply respects_update_track.
  - exact kept_refl.
  - exact kept_trans.
  - apply play_next_queue_item_kept.
Qed.







(** ** The selection among voted items *)

Lemma score_before_total (b : backend) (x y : option Z) :
  score_before b x y = false -> score_before b y x = true.
Proof.
  destruct x as [a|], y as [c|], b; cbn; try discriminate; try reflexivity.
  - rewrite Z.leb_gt, Z.leb_le. lia.
  - rewrite Z.leb_gt, Z.leb_le. lia.
Qed.

Lemma score_before_trans (b : backend) (x y z : option Z) :
  score_before b x y = true -> score_before b y z = true ->
  score_before b x z = true.
Proof.
  destruct x as [a|], y as [c|], z as [e|], b; cbn;
    try discriminate; try reflexivity.
  - rewrite !Z.leb_le. lia.
  - rewrite !Z.leb_le. lia.
Qed.

Lemma In_insert_by_score (b : backend) (x y : QueueItem * option Z)
    (l : list (QueueItem * option Z)) :
  y = x \/ In y l -> In y (insert_by_score b x l).
Proof.
  induction l as [|z l IH]; cbn.
  - intros [-> | []]. left. reflexivity.
  - destruct (score_before b (snd x) (snd z)); cbn.
    + intros [-> | H]; [left; reflexivity | right; exact H].
    + intros [-> | [-> | H]].
      * right. apply IH. left. reflexivity.
      * left. reflexivity.
      * right. apply IH. right. exact H.
Qed.

Lemma In_order_by_score_desc (b : backend) (y : QueueItem * option Z)
    (l : list (QueueItem * option Z)) :
  In y l -> In y (order_by_score_desc b l).
Proof.
  induction l as [|x l IH]; cbn; [tauto | ].
  intros [-> | H]; apply In_insert_by_score;
    [left; reflexivity | right; exact (IH H)].
Qed.

Lemma insert_by_score_in_order (b : backend) (x : QueueItem * option Z)
    (l : list (QueueItem * option Z)) :
  in_score_order b l -> in_score_order b (insert_by_score b x l).
Proof.
  induction l as [|z l IH]; cbn.
  - intros _. split; [intros r [] | exact I].
  - intros [Hz Hl]. destruct (score_before b (snd x) (snd z)) eqn:E; cbn.
    + split; [ | split; assumption].
      intros r [<- | Hr]; [exact E | ].
      exact (score_before_trans _ _ _ _ E (Hz r Hr)).
    + split; [ | exact (IH Hl)].
      intros r Hr. apply insert_by_score_In in Hr. destruct Hr as [-> | Hr].
      * exact (score_before_total _ _ _ E).
      * exact (Hz r Hr).
Qed.

Lemma order_by_score_desc_in_order (b : backend)
    (l : list (QueueItem * option Z)) :
  in_score_order b (order_by_score_desc b l).
Proof.
  induction l as [|x l IH]; cbn; [exact I | ].
  apply insert_by_score_in_order. exact IH.
Qed.

Lemma filter_in_score_order (b : backend)
    (keep : QueueItem * option Z -> bool) (l : list (QueueItem * option Z)) :
  in_score_order b l -> in_score_order b (filter keep l).
Proof.
  induction l as [|z l IH]; cbn; [auto | ].
  intros [Hz Hl]. destruct (keep z); cbn; [ | exact (IH Hl)].
  split; [ | exact (IH Hl)].
  intros r Hr. apply filter_In in Hr. apply Hz, Hr.
Qed.

(** The rows of the ordered queue are the rows never started, each with the
    sum of its votes. *)
Lemma get_queryset_In (b : backend) (d : DB) (r : QueueItem * option Z) :
  In r (get_queryset b d) <->
  In (fst r) (db_items d) /\ playing_start_time (fst r) = None /\
  snd r = Sum_value d (item_id (fst r)).
Proof.
  unfold get_queryset. split.
  - intros H. apply order_by_score_desc_In, in_map_iff in H.
    destruct H as (x & <- & Hx). apply filter_In in Hx. cbn.
    destruct Hx as [Hx Hstart].
    destruct (playing_start_time x); [discriminate | auto].
  - intros (Hin & Hstart & Hsum). apply In_order_by_score_desc, in_map_iff.
    exists (fst r). split.
    + rewrite <- Hsum. destruct r; reflexivity.
    + apply filter_In. split; [exact Hin | ]. rewrite Hstart. reflexivity.
Qed.

Lemma vote_score_Sum_value (d : DB) (it : QueueItem) (s : Z) :
  Sum_value d (item_id it) = Some s -> vote_score d it = s.
Proof.
  unfold vote_score. intros ->.
  destruct (s =? 0) eqn:E; [apply Z.eqb_eq in E; auto | reflexivity].
Qed.

(** What holds of the selection: when every queued item of the party has a
    vote and item [m] has the strictly highest score among them, the item
    selected is [m], on either backend. *)
Lemma get_next_highest_score_among_voted (b : backend) (d : DB) (p : Z)
    (m : QueueItem) :
  In m (db_items d) -> playing_start_time m = None -> item_party m = p ->
  (forall x, In x (db_items d) -> playing_start_time x = None ->
             item_party x = p -> Sum_value d (item_id x) <> None) ->
  (forall x, In x (db_items d) -> playing_start_time x = None ->
             item_party x = p -> item_id x <> item_id m ->
             vote_score d x < vote_score d m) ->
  exists it, get_next b d p = Some it /\ item_id it = item_id m.
Proof.
  intros Hm Hstart Hparty Hvoted Hbest.
  unfold get_next, queue.
  set (l := filter (fun r => item_party (fst r) =? p) (get_queryset b d)).
  assert (Hl : forall r, In r l ->
            In (fst r) (db_items d) /\ playing_start_time (fst r) = None /\
            item_party (fst r) = p /\ snd r = Sum_value d (item_id (fst r))).
  { intros r Hr. apply filter_In in Hr. destruct Hr as [Hr Hp].
    apply get_queryset_In in Hr. apply Z.eqb_eq in Hp. tauto. }
  assert (Hml : In (m, Sum_value d (item_id m)) l).
  { apply filter_In. split.
    - apply get_queryset_In. cbn. auto.
    - cbn. apply Z.eqb_eq. exact Hparty. }
  assert (Hord : in_score_order b l).
  { apply filter_in_score_order, order_by_score_desc_in_order. }
  destruct l as [|h l']; [destruct Hml | ].
  exists (fst h). split; [reflexivity | ].
  destruct Hml as [-> | Hml]; [reflexivity | ].
  destruct Hord as [Hh _]. specialize (Hh _ Hml). cbn in Hh.
  destruct (Hl h (or_introl eq_refl)) as (Hin & Hs & Hp & Hsum).
  destruct (Z.eq_dec (item_id (fst h)) (item_id m)) as [Heq | Hne]; [exact Heq | ].
  exfalso.
  pose proof (Hbest _ Hin Hs Hp Hne) as Hlt.
  pose proof (Hvoted _ Hin Hs Hp) as Hvh.
  pose proof (Hvoted _ Hm Hstart Hparty) as Hvm.
  rewrite Hsum in Hh.
  destruct (Sum_value d (item_id (fst h))) as [sh|] eqn:Eh; [ | congruence].
  destruct (Sum_value d (item_id m)) as [sm|] eqn:Em; [ | congruence].
  rewrite (vote_score_Sum_value _ _ _ Eh), (vote_score_Sum_value _ _ _ Em) in Hlt.
  cbn in Hh. apply Z.leb_le in Hh. lia.
Qed.

(** ** When the loop stops *)

Lemma end_of_turn_owns_party (now : datetime) (w1 : World) :
  other_manager_owns_party (end_of_turn now w1) = false.
Proof.
  unfold other_manager_owns_party. cbn. rewrite Z.eqb_refl. reflexivity.
Qed.

(** A turn clears [keep_running] only when it leaves the party without users:
    neither an exception nor the owner stored by another manager stops the
    loop. *)
Lemma tick_stops_only_when_empty (b : backend) (svc : Z -> outcome (option Z))
    (now : datetime) (w : World) :
  keep_running w = true ->
  keep_running (tick b svc now w) = false ->
  user_count (db (tick b svc now w)) (party_id (party (tick b svc now w))) = 0.
Proof.
  intros Hrun. unfold tick.
  destruct (maintain_party b svc now w) as [[[]|e] w'] eqn:H;
    apply maintain_party_inv in H;
    destruct H as [(e0 & H0 & He) | (w0 & H0 & [(e0 & H1 & He) | (w1 & H1 & He & ->)])];
    try discriminate.
  - unfold should_keep_running. rewrite end_of_turn_owns_party.
    cbn [keep_running set_keep_running db party negb].
    rewrite andb_true_r, negb_false_iff, Z.eqb_eq. auto.
  - apply refresh_from_db_inv in H0. destruct H0 as (_ & _ & Hk & _). congruence.
  - apply refresh_from_db_inv in H0. destruct H0 as (_ & _ & Hk & _).
    apply update_track_frame in H1. destruct H1 as (_ & Hk1 & _). congruence.
Qed.

(** * Further properties *)

(** ** Presence *)






Lemma check_in_to_party_presences (t : datetime) (user party : Z) (d d' : DB) :
  check_in_to_party t user party d = CheckedIn d' ->
  In {| presence_user := user; presence_party := party; last_check_in := t |}
     (db_presences d') /\
  forall p, In p (db_presences d') -> presence_of user party p = true ->
            p = {| presence_user := user; presence_party := party;
                   last_check_in := t |}.
Proof.
  unfold check_in_to_party.
  destruct (filter (presence_of user party) (db_presences d))
    as [|x [|y l]] eqn:Hfilter; intros H; [ | | discriminate];
    injection H as <-; cbn.
  - split.
    + apply in_or_app. right. left. reflexivity.
    + intros p Hp Hq. apply in_app_or in Hp. destruct Hp as [Hp | [<- | []]];
        [ | reflexivity].
      assert (Hin : In p (filter (presence_of user party) (db_presences d)))
        by (apply filter_In; auto).
      rewrite Hfilter in Hin. destruct Hin.
  - assert (Hx : In x (db_presences d) /\ presence_of user party x = true).
    { apply filter_In. rewrite Hfilter. left. reflexivity. }
    split.
    + apply in_map_iff. exists x. destruct Hx as [Hx ->]. auto.
    + intros p Hp Hq. apply in_map_iff in Hp. destruct Hp as (r & <- & _).
      destruct (presence_of user party r) eqn:E; [reflexivity | congruence].
Qed.

(** A user who checked in at [t] is still present after the pruning of a
    turn at [now] when [t] is not before [now] minus one minute, the minute
    itself included, and has no presence left in the party otherwise. *)
Theorem checked_in_user_pruned_after_a_minute (t now : datetime)
    (user : Z) (d d' : DB) (w : World) :
  check_in_to_party t user (party_id (party w)) d = CheckedIn d' ->
  db w = d' ->
  (now - USER_CHECK_IN_FREQUENCY <= t ->
     In {| presence_user := user; presence_party := party_id (party w);
           last_check_in := t |}
        (db_presences (db (snd (prune_users now w))))) /\
  (t < now - USER_CHECK_IN_FREQUENCY ->
     forall p, In p (db_presences (db (snd (prune_users now w)))) ->
               presence_of user (party_id (party w)) p = false).
Proof.
  intros Hcheck Hdb.
  destruct (check_in_to_party_presences _ _ _ _ _ Hcheck) as [Hin Honly].
  cbn. rewrite Hdb. split.
  - intros Hfresh. apply filter_In. split; [exact Hin | ].
    unfold stale. cbn. rewrite Z.eqb_refl. cbn.
    apply negb_true_iff, Z.ltb_ge. exact Hfresh.
  - intros Hstale p Hp. apply filter_In in Hp. destruct Hp as [Hp Hkeep].
    destruct (presence_of user (party_id (party w)) p) eqn:E; [ | reflexivity].
    rewrite (Honly p Hp E) in Hkeep. unfold stale in Hkeep. cbn in Hkeep.
    rewrite Z.eqb_refl in Hkeep. cbn in Hkeep.
    apply negb_true_iff, Z.ltb_ge in Hkeep. lia.
Qed.

Lemma checked_in_user_pruned_after_a_minute_witness :
  In {| presence_user := 2; presence_party := 1; last_check_in := seconds 40 |}
     (db_presences (db (snd (prune_users (seconds 100)
        (command_on 1 (set_presences two_parties
           (map (fun p => if presence_of 2 1 p
                          then {| presence_user := 2; presence_party := 1;
                                  last_check_in := seconds 40 |}
                          else p)
                (db_presences two_parties)))))))).
Proof.
  refine (proj1 (checked_in_user_pruned_after_a_minute (seconds 40) (seconds 100)
                   2 two_parties _ (command_on 1 _) eq_refl eq_refl) _).
  unfold USER_CHECK_IN_FREQUENCY, minutes, seconds. lia.
Defined.

Lemma filter_filter_weaker {A : Type} (f g : A -> bool) (l : list A) :
  (forall a, g a = true -> f a = true) ->
  filter g (filter f l) = filter g l.
Proof.
  intros Hfg. induction l as [|a l IH]; cbn; [reflexivity | ].
  destruct (f a) eqn:Ef; cbn.
  - destruct (g a); congruence.
  - destruct (g a) eqn:Eg; [ | exact IH].
    rewrite (Hfg a Eg) in Ef. discriminate.
Qed.

(** Pruning does not raise and deletes the presences of the party that
    checked in more than a minute before, and nothing else: presences of
    other parties, queue items, votes and the party row stay. Pruning again
    later gives what pruning once at the later instant gives; in particular
    pruning twice at one instant is pruning once. *)
Theorem prune_users_deletes_stale_presences_only (now now' : datetime)
    (w : World) :
  now <= now' ->
  fst (prune_users now w) = Ok tt /\
  (forall p, In p (db_presences (db (snd (prune_users now w)))) <->
             In p (db_presences (db w)) /\
             (presence_party p <> party_id (party w) \/
              now - USER_CHECK_IN_FREQUENCY <= last_check_in p)) /\
  snd (prune_users now' (snd (prune_users now w))) = snd (prune_users now' w) /\
  db_items (db (snd (prune_users now w))) = db_items (db w) /\
  db_votes (db (snd (prune_users now w))) = db_votes (db w) /\
  db_party (db (snd (prune_users now w))) = db_party (db w) /\
  party (snd (prune_users now w)) = party w.
Proof.
  intros Hle. cbn. repeat split; try reflexivity.
  - apply filter_In in H. apply H.
  - apply filter_In in H. destruct H as [_ H]. unfold stale in H.
    apply negb_true_iff, andb_false_iff in H. destruct H as [H | H].
    + left. apply Z.eqb_neq. exact H.
    + right. apply Z.ltb_ge. exact H.
  - intros [Hin Hkeep]. apply filter_In. split; [exact Hin | ].
    unfold stale. apply negb_true_iff, andb_false_iff.
    destruct Hkeep as [H | H].
    + left. apply Z.eqb_neq. exact H.
    + right. apply Z.ltb_ge. exact H.
  - unfold set_db. cbn. f_equal. f_equal.
    apply filter_filter_weaker. intros p Hp. unfold stale in *.
    apply negb_true_iff, andb_false_iff in Hp.
    apply negb_true_iff, andb_false_iff.
    destruct Hp as [Hp | Hp]; [left; exact Hp | right].
    apply Z.ltb_ge in Hp. apply Z.ltb_ge. lia.
Qed.

Lemma prune_users_deletes_stale_presences_only_witness :
  db_presences (db (snd (prune_users (seconds 100) (command_on 1 stale_majority))))
    = check_ins (seconds 99) [1] /\
  snd (prune_users (seconds 100)
         (snd (prune_users (seconds 100) (command_on 1 stale_majority))))
    = snd (prune_users (seconds 100) (command_on 1 stale_majority)).
Proof.
  destruct (prune_users_deletes_stale_presences_only (seconds 100) (seconds 100)
              (command_on 1 stale_majority) ltac:(lia))
    as (_ & _ & Hagain & _).
  split; [reflexivity | exact Hagain].
Defined.

(** ** The lease, again *)

(** A claim does not keep a second manager out: the claim is written on the
    party object and not to the store, so a manager that starts after another
    has claimed the party, before that one has finished a turn, finds the
    same stale heartbeat and claims the party too. *)
Theorem handle_claim_does_not_exclude (uuid uuid' : UUID)
    (now now' : datetime) (d : DB) :
  now <= now' ->
  keep_running (handle_claim uuid now d) = true ->
  keep_running (handle_claim uuid' now' (db (handle_claim uuid now d))) = true.
Proof.
  intros Hle Hfirst.
  destruct (handle_claim_keep_running uuid now d) as [Hk Hdb].
  rewrite Hdb. rewrite (proj1 (handle_claim_keep_running uuid' now' d)).
  apply (needs_new_manager_later now); [exact Hle | congruence].
Qed.

Lemma handle_claim_does_not_exclude_witness :
  keep_running (handle_claim 1 (seconds 100) (voted_and_unvoted 1)) = true /\
  keep_running (handle_claim 2 (seconds 101)
                  (db (handle_claim 1 (seconds 100) (voted_and_unvoted 1)))) = true.
Proof.
  split; [reflexivity | ].
  apply (handle_claim_does_not_exclude 1 2 (seconds 100) (seconds 101)
           (voted_and_unvoted 1)).
  - unfold seconds. lia.
  - reflexivity.
Defined.

(** A turn that does not raise renews the lease: the claim of another manager
    on the database it leaves succeeds exactly when more than ten seconds
    have passed since the turn. *)
Theorem lease_lasts_ten_seconds_after_turn (b : backend)
    (svc : Z -> outcome (option Z)) (now now' : datetime) (uuid' : UUID)
    (w w' : World) :
  maintain_party b svc now w = (Ok tt, w') ->
  keep_running (handle_claim uuid' now' (db w')) = (seconds 10 <? now' - now).
Proof.
  intros H. apply maintain_party_inv in H.
  destruct H as [(e & _ & He) | (w0 & H0 & [(e & _ & He) | (w1 & H1 & _ & ->)])];
    try discriminate.
  rewrite (proj1 (handle_claim_keep_running _ _ _)). reflexivity.
Qed.

Lemma lease_lasts_ten_seconds_after_turn_witness :
  keep_running (handle_claim 2 (seconds 110)
     (db (snd (maintain_party NullsLast no_service (seconds 100)
                 (command_on 1 taken_over))))) = false /\
  keep_running (handle_claim 2 (seconds 111)
     (db (snd (maintain_party NullsLast no_service (seconds 100)
                 (command_on 1 taken_over))))) = true.
Proof.
  split.
  - exact (eq_trans
      (lease_lasts_ten_seconds_after_turn NullsLast no_service
         (seconds 100) (seconds 110) 2 (command_on 1 taken_over)
         (snd (maintain_party NullsLast no_service (seconds 100)
                 (command_on 1 taken_over)))
         eq_refl)
      eq_refl).
  - exact (eq_trans
      (lease_lasts_ten_seconds_after_turn NullsLast no_service
         (seconds 100) (seconds 111) 2 (command_on 1 taken_over)
         (snd (maintain_party NullsLast no_service (seconds 100)
                 (command_on 1 taken_over)))
         eq_refl)
      eq_refl).
Defined.

(** ** The loop, again *)

Lemma refresh_from_db_playing (w : World) (i : Z) (it : QueueItem) :
  row_playing_item (db_party (db w)) = Some i ->
  find (fun r => item_id r =? i) (db_items (db w)) = Some it ->
  exists w0, refresh_from_db w = (Ok tt, w0) /\
             playing_item (party w0) = Some it /\
             db w0 = db w /\ keep_running w0 = keep_running w /\
             manager_uuid w0 = manager_uuid w.
Proof.
  intros Hrow Hfind. unfold refresh_from_db, bind, get, modify, ret.
  rewrite Hrow, Hfind. eexists. split; [reflexivity | ]. repeat split.
Qed.

Lemma tick_falsy_duration (b : backend) (svc : Z -> outcome (option Z))
    (now : datetime) (w : World) (i : Z) (it : QueueItem) :
  row_playing_item (db_party (db w)) = Some i ->
  find (fun r => item_id r =? i) (db_items (db w)) = Some it ->
  truthy (duration_ms it) = false ->
  db (tick b svc now w) = db w /\
  keep_running (tick b svc now w) = keep_running w.
Proof.
  intros Hrow Hfind Hfalsy.
  destruct (refresh_from_db_playing w i it Hrow Hfind)
    as (w0 & Hrefresh & Hitem & Hdb & Hkeep & _).
  assert (Hupd : update_track b svc now w0 = (Raise ZeroDivisionError, w0)).
  { unfold update_track, bind, get, ret, raise. rewrite Hitem.
    cbv beta iota. rewrite Hitem. cbv beta iota.
    unfold get_track_position. rewrite Hfalsy. reflexivity. }
  assert (Hturn : maintain_party b svc now w = (Raise ZeroDivisionError, w0)).
  { unfold maintain_party, bind at 1. rewrite Hrefresh.
    unfold bind at 1. rewrite Hupd. reflexivity. }
  unfold tick. rewrite Hturn. split; assumption.
Qed.

(** While the playing item of the party has no duration, or a duration of
    zero, the loop does not stop by itself: every turn raises, the exception
    is logged, and [keep_running] stays set, also when no user is left. *)
Theorem run_does_not_stop_on_falsy_duration (b : backend)
    (svc : Z -> outcome (option Z)) (clock : nat -> datetime) (fuel : nat) :
  forall (n : nat) (w : World) (i : Z) (it : QueueItem),
    keep_running w = true ->
    row_playing_item (db_party (db w)) = Some i ->
    find (fun r => item_id r =? i) (db_items (db w)) = Some it ->
    truthy (duration_ms it) = false ->
    run b svc fuel clock n w = None.
Proof.
  induction fuel as [|fuel IH]; intros n w i it Hkeep Hrow Hfind Hfalsy; cbn;
    rewrite Hkeep; [reflexivity | ].
  destruct (tick_falsy_duration b svc (clock n) w i it Hrow Hfind Hfalsy)
    as [Hdb Hk].
  apply (IH _ _ i it).
  - congruence.
  - rewrite Hdb. exact Hrow.
  - rewrite Hdb. exact Hfind.
  - exact Hfalsy.
Qed.

Lemma run_does_not_stop_on_falsy_duration_witness :
  run NullsLast no_service 50 (fun n => seconds 100 + seconds (Z.of_nat n)) 0
      (command_on 1 (set_presences zero_duration [])) = None.
Proof.
  apply (run_does_not_stop_on_falsy_duration NullsLast no_service _ 50 0
           (command_on 1 (set_presences zero_duration [])) 7
           (track 7 (Some (seconds 90)) (Some 0)));
    reflexivity.
Defined.

(** The loop stops with the first turn that does not raise and leaves the
    party without users. *)
Theorem run_stops_when_party_is_empty (b : backend)
    (svc : Z -> outcome (option Z)) (clock : nat -> datetime) (fuel n : nat)
    (w w' : World) :
  keep_running w = true ->
  maintain_party b svc (clock n) w = (Ok tt, w') ->
  user_count (db w') (party_id (party w')) = 0 ->
  run b svc (S fuel) clock n w = Some (set_keep_running w' false, S n).
Proof.
  intros Hkeep Hturn Hempty. cbn. rewrite Hkeep.
  assert (Htick : tick b svc (clock n) w = set_keep_running w' false).
  { unfold tick. rewrite Hturn. unfold should_keep_running.
    rewrite Hempty. reflexivity. }
  rewrite Htick. destruct fuel; reflexivity.
Qed.

Lemma run_stops_when_party_is_empty_witness :
  exists w',
    run NullsLast no_service 5 (fun _ => seconds 200) 0 (command_on 1 taken_over)
      = Some (w', 1%nat) /\
    db_presences (db w') = [].
Proof.
  eexists. split.
  - apply (run_stops_when_party_is_empty NullsLast no_service
             (fun _ => seconds 200) 4 0 (command_on 1 taken_over)
             _ eq_refl eq_refl eq_refl).
  - reflexivity.
Defined.

(** ** Playing the next item *)

Lemma save_item_In_self (x : QueueItem) (d : DB) :
  In x (db_items (save_item x d)).
Proof.
  unfold save_item.
  destruct (existsb (fun r => item_id r =? item_id x) (db_items d)) eqn:E; cbn.
  - apply existsb_exists in E. destruct E as (r & Hr & Hid).
    apply in_map_iff. exists r. rewrite Hid. auto.
  - apply in_or_app. right. left. reflexivity.
Qed.

Lemma delete_item_votes (i : Z) (d : DB) :
  votes_of (delete_item i d) i = [].
Proof.
  unfold votes_of. cbn. induction (db_votes d) as [|v l IH]; cbn; [reflexivity | ].
  destruct (vote_queue_item v =? i) eqn:E; cbn; [exact IH | ].
  rewrite E. exact IH.
Qed.

(** With an item queued whose duration is known, or is answered by the
    lookup, [play_next_queue_item] does not raise: the party object plays the
    selected item, started at [now] with that duration, the item is stored so
    and the stored party plays it; the lookup is not asked for an item that
    has a duration. *)
Theorem play_next_queue_item_starts_selected_item (b : backend)
    (svc : Z -> outcome (option Z)) (now : datetime) (w : World)
    (it : QueueItem) (duration : option Z) :
  get_next b (db w) (party_id (party w)) = Some it ->
  (if negb (truthy (duration_ms it)) then svc (identifier it)
   else Ok (duration_ms it)) = Ok duration ->
  exists w',
    play_next_queue_item b svc now w = (Ok tt, w') /\
    playing_item (party w') =
      Some {| item_id := item_id it; identifier := identifier it;
              playing_start_time := Some now; duration_ms := duration;
              item_user := item_user it; item_party := item_party it |} /\
    In {| item_id := item_id it; identifier := identifier it;
          playing_start_time := Some now; duration_ms := duration;
          item_user := item_user it; item_party := item_party it |}
       (db_items (db w')) /\
    row_playing_item (db_party (db w')) = Some (item_id it) /\
    (truthy (duration_ms it) = true -> duration = duration_ms it).
Proof.
  intros Hnext Hduration. rewrite play_next_queue_item_unfold. cbv zeta.
  rewrite Hnext, Hduration. eexists. split; [reflexivity | ].
  cbn. repeat split.
  - apply save_item_In_self.
  - intros Hknown. rewrite Hknown in Hduration. cbn in Hduration. congruence.
Qed.

Lemma play_next_queue_item_starts_selected_item_witness :
  exists w',
    play_next_queue_item NullsLast no_service the_instant
        (command_on 1 (voted_and_unvoted (-1))) = (Ok tt, w') /\
    row_playing_item (db_party (db w')) = Some 1 /\
    In (track 1 (Some the_instant) (Some 180000)) (db_items (db w')).
Proof.
  destruct (play_next_queue_item_starts_selected_item NullsLast no_service
              the_instant (command_on 1 (voted_and_unvoted (-1)))
              (track 1 None (Some 180000)) (Some 180000) eq_refl eq_refl)
    as (w' & Hplay & _ & Hin & Hrow & _).
  exists w'. split; [exact Hplay | ]. split; [exact Hrow | exact Hin].
Defined.

(** With nothing queued, [play_next_queue_item] does not raise and leaves the
    party idle: the party object and the stored party play nothing, and the
    item that was playing is deleted with its votes; the other items stay. *)
Theorem play_next_queue_item_empty_queue (b : backend)
    (svc : Z -> outcome (option Z)) (now : datetime) (w : World) :
  get_next b (db w) (party_id (party w)) = None ->
  exists w',
    play_next_queue_item b svc now w = (Ok tt, w') /\
    playing_item (party w') = None /\
    row_playing_item (db_party (db w')) = None /\
    (forall prev, playing_item (party w) = Some prev ->
       db_items (db w') =
         filter (fun r => negb (item_id r =? item_id prev)) (db_items (db w)) /\
       votes_of (db w') (item_id prev) = []) /\
    (playing_item (party w) = None ->
       db_items (db w') = db_items (db w) /\ db_votes (db w') = db_votes (db w)).
Proof.
  intros Hnext. rewrite play_next_queue_item_unfold. cbv zeta. rewrite Hnext.
  eexists. split; [reflexivity | ].
  destruct (playing_item (party w)) as [prev|]; cbn; repeat split;
    try discriminate.
  - injection H as <-. reflexivity.
  - injection H as <-. apply (delete_item_votes (item_id prev) (db w)).
Qed.

Lemma play_next_queue_item_empty_queue_witness :
  exists w',
    play_next_queue_item NullsLast no_service the_instant
        (snd (refresh_from_db (command_on 1 stale_majority))) = (Ok tt, w') /\
    db_items (db w') = [] /\ db_votes (db w') = [].
Proof.
  destruct (play_next_queue_item_empty_queue NullsLast no_service the_instant
              (snd (refresh_from_db (command_on 1 stale_majority))) eq_refl)
    as (w' & Hplay & _ & _ & Hprev & _).
  exists w'. split; [exact Hplay | ].
  destruct (Hprev (track 7 (Some (seconds 90)) (Some 180000)) eq_refl)
    as [Hitems Hvotes].
  split; [exact Hitems | ].
  revert Hvotes. rewrite play_next_queue_item_unfold in Hplay.
  injection Hplay as <-. intros _. reflexivity.
Defined.

(** When the lookup of the duration fails for the item selected on a party
    that plays nothing, [play_next_queue_item] raises what the lookup raised
    and has written nothing: the item is still queued, without timestamp, and
    it is the item selected the next time. *)
Theorem play_next_queue_item_lookup_failure (b : backend)
    (svc : Z -> outcome (option Z)) (now : datetime) (w : World)
    (it : QueueItem) (e : exn) :
  playing_item (party w) = None ->
  get_next b (db w) (party_id (party w)) = Some it ->
  truthy (duration_ms it) = false ->
  svc (identifier it) = Raise e ->
  exists w',
    play_next_queue_item b svc now w = (Raise e, w') /\
    db w' = db w /\
    get_next b (db w') (party_id (party w')) = Some it /\
    playing_start_time it = None.
Proof.
  intros Hidle Hnext Hunknown Hfail.
  rewrite play_next_queue_item_unfold. cbv zeta.
  rewrite Hnext, Hunknown, Hfail, Hidle. cbn.
  eexists. split; [reflexivity | ]. cbn. repeat split.
  - exact Hnext.
  - apply (get_next_queued _ _ _ _ Hnext).
Qed.

Lemma play_next_queue_item_lookup_failure_witness :
  exists w',
    play_next_queue_item NullsLast no_service the_instant
        (command_on 1 (set_items taken_over [track 4 None None]))
      = (Raise ServiceError, w') /\
    db w' = set_items taken_over [track 4 None None].
Proof.
  destruct (play_next_queue_item_lookup_failure NullsLast no_service the_instant
              (command_on 1 (set_items taken_over [track 4 None None]))
              (track 4 None None) ServiceError
              eq_refl eq_refl eq_refl eq_refl)
    as (w' & Hplay & Hdb & _).
  exists w'. split; [exact Hplay | exact Hdb].
Defined.

(** ** Updating the track *)

Lemma get_track_position_duration (now : datetime) (it : QueueItem) (d : Z) :
  duration_ms it = Some d -> d <> 0 ->
  snd (get_track_position now it) = d.
Proof.
  intros Hd Hnz. unfold get_track_position. rewrite Hd. cbn.
  destruct (d =? 0) eqn:E; [apply Z.eqb_eq in E; contradiction | ]. cbn.
  destruct (playing_start_time it) as [t|]; [ | reflexivity].
  destruct (d * 1000 <? now - t); reflexivity.
Qed.

Lemma update_track_playing (b : backend) (svc : Z -> outcome (option Z))
    (now : datetime) (w : World) (it : QueueItem) (d : Z) :
  playing_item (party w) = Some it ->
  duration_ms it = Some d -> d <> 0 ->
  update_track b svc now w =
    (if py_eq (fst (get_track_position now it)) d || should_skip (db w) it
     then play_next_queue_item b svc now w
     else (Ok tt, w)).
Proof.
  intros Hitem Hd Hnz.
  pose proof (get_track_position_duration now it d Hd Hnz) as Hsnd.
  unfold update_track, bind, get, ret, raise. rewrite Hitem.
  cbv beta iota. rewrite Hitem. cbv beta iota.
  destruct (get_track_position now it) as [position_ms duration] eqn:Hpos.
  cbn in Hsnd. subst duration. cbn [fst].
  apply Z.eqb_neq in Hnz. rewrite Hnz.
  destruct (py_eq position_ms d || should_skip (db w) it); reflexivity.
Qed.

(** A playing item of known duration is retired by [update_track], which
    goes on to play the next item, when more than its duration has passed
    since it started, and, wherever it is in the track, when its skip votes
    exceed half the users of its party. *)
Theorem update_track_retires_finished_or_skipped (b : backend)
    (svc : Z -> outcome (option Z)) (now : datetime) (w : World)
    (it : QueueItem) (d : Z) :
  playing_item (party w) = Some it ->
  duration_ms it = Some d -> d <> 0 ->
  (exists t, playing_start_time it = Some t /\ d * 1000 < now - t) \/
  user_count (db w) (item_party it) < 2 * skip_count (db w) (item_id it) ->
  update_track b svc now w = play_next_queue_item b svc now w.
Proof.
  intros Hitem Hd Hnz Hwhy.
  rewrite (update_track_playing b svc now w it d Hitem Hd Hnz).
  destruct Hwhy as [(t & Ht & Hpast) | Hskip].
  - rewrite (get_track_position_cases now it d t Hd Hnz Ht).
    apply Z.ltb_lt in Hpast. rewrite Hpast. cbn. rewrite Z.eqb_refl. reflexivity.
  - apply should_skip_true_iff_lt in Hskip. rewrite Hskip, orb_true_r.
    reflexivity.
Qed.

Lemma update_track_retires_finished_or_skipped_witness :
  update_track NullsLast no_service the_instant
      (snd (refresh_from_db (command_on 1 three_of_five)))
    = play_next_queue_item NullsLast no_service the_instant
        (snd (refresh_from_db (command_on 1 three_of_five))).
Proof.
  apply (update_track_retires_finished_or_skipped NullsLast no_service
           the_instant _ (track 7 (Some 0) (Some 180000)) 180000);
    [reflexivity | reflexivity | discriminate | ].
  right. vm_compute. reflexivity.
Defined.

Lemma play_next_queue_item_stored (b : backend) (svc : Z -> outcome (option Z))
    (now : datetime) (w w' : World) :
  play_next_queue_item b svc now w = (Ok tt, w') -> playing_item_stored w'.
Proof.
  rewrite play_next_queue_item_unfold. cbv zeta.
  destruct (get_next b (db w) (party_id (party w))) as [it|].
  - destruct (if negb (truthy (duration_ms it)) then svc (identifier it)
              else Ok (duration_ms it)) as [duration|e]; [ | discriminate].
    intros H. injection H as <-. intros x Hx. cbn in Hx. injection Hx as <-.
    cbn. apply save_item_In_self.
  - intros H. injection H as <-. intros x Hx.
    destruct (playing_item (party w)); discriminate.
Qed.

Lemma update_track_stored (b : backend) (svc : Z -> outcome (option Z))
    (now : datetime) (w w' : World) :
  playing_item_stored w ->
  update_track b svc now w = (Ok tt, w') -> playing_item_stored w'.
Proof.
  intros Hstored. unfold update_track. intros H.
  apply bind_inv in H. destruct H as [(w0 & w1 & Hget & H) | (e & _ & He)];
    [ | discriminate].
  injection Hget as <- <-.
  assert (Hrest : forall v,
    playing_item_stored v ->
    (w <- get ;;
     match playing_item (party w) with
     | None => raise AttributeError
     | Some item =>
         let '(position_ms, duration_ms) := get_track_position now item in
         (if duration_ms =? 0 then raise ZeroDivisionError else ret tt) ;;;
         if py_eq position_ms duration_ms || should_skip (db w) item
         then play_next_queue_item b svc now
         else ret tt
     end) v = (Ok tt, w') -> playing_item_stored w').
  { intros v Hv Hr.
    apply bind_inv in Hr. destruct Hr as [(v0 & v1 & Hget & Hr) | (e & _ & He)];
      [ | discriminate].
    injection Hget as <- <-.
    destruct (playing_item (party v)) as [item|]; [ | discriminate].
    destruct (get_track_position now item) as [position_ms duration].
    apply bind_inv in Hr. destruct Hr as [([] & v1 & Hlog & Hr) | (e & _ & He)];
      [ | discriminate].
    assert (v1 = v) as ->.
    { destruct (duration =? 0); [discriminate | ]. injection Hlog as <-.
      reflexivity. }
    destruct (py_eq position_ms duration || should_skip (db v) item).
    - exact (play_next_queue_item_stored _ _ _ _ _ Hr).
    - injection Hr as <-. exact Hv. }
  destruct (playing_item (party w)) as [item|] eqn:Hitem.
  - apply bind_inv in H. destruct H as [([] & v & Hfirst & H) | (e & _ & He)];
      [ | discriminate].
    injection Hfirst as <-. exact (Hrest w Hstored H).
  - destruct (length (queue b (db w) (party_id (party w)))).
    + injection H as <-. exact Hstored.
    + apply bind_inv in H. destruct H as [([] & v & Hfirst & H) | (e & _ & He)];
        [ | discriminate].
      exact (Hrest v (play_next_queue_item_stored _ _ _ _ _ Hfirst) H).
Qed.

(** After a turn that did not raise, the item the stored party plays, if
    any, is a stored queue item: the turn leaves no dangling reference. *)
Theorem stored_playing_item_exists_after_turn (b : backend)
    (svc : Z -> outcome (option Z)) (now : datetime) (w w' : World) :
  maintain_party b svc now w = (Ok tt, w') ->
  forall i, row_playing_item (db_party (db w')) = Some i ->
            exists r, In r (db_items (db w')) /\ item_id r = i.
Proof.
  intros H. apply maintain_party_inv in H.
  destruct H as [(e & _ & He) | (w0 & H0 & [(e & _ & He) | (w1 & H1 & _ & ->)])];
    try discriminate.
  assert (Hstored0 : playing_item_stored w0).
  { destruct (refresh_from_db_inv _ _ _ H0) as (Hdb & _ & _ & Hok & _).
    destruct (Hok eq_refl) as [_ Hin]. intros it Hit. rewrite Hdb.
    exact (Hin it Hit). }
  pose proof (update_track_stored _ _ _ _ _ Hstored0 H1) as Hstored1.
  intros i Hi. cbn in Hi.
  destruct (playing_item (party w1)) as [it|] eqn:Hit; [ | discriminate].
  cbn in Hi. injection Hi as <-.
  exists it. split; [ | reflexivity]. cbn. exact (Hstored1 it Hit).
Qed.

Lemma stored_playing_item_exists_after_turn_witness :
  exists r,
    In r (db_items (db (snd (maintain_party NullsLast no_service the_instant
                               (command_on 1 finished_and_queued))))) /\
    item_id r = 8.
Proof.
  apply (stored_playing_item_exists_after_turn NullsLast no_service the_instant
           (command_on 1 finished_and_queued)
           (snd (maintain_party NullsLast no_service the_instant
                   (command_on 1 finished_and_queued)))
           eq_refl 8 eq_refl).
Defined.

(** ** The queue, again *)

Lemma insert_by_score_keeps_rows (b : backend) (x : QueueItem * option Z)
    (l : list (QueueItem * option Z)) :
  Permutation (insert_by_score b x l) (x :: l).
Proof.
  induction l as [|z l IH]; cbn; [apply Permutation_refl | ].
  destruct (score_before b (snd x) (snd z)); [apply Permutation_refl | ].
  apply (perm_trans (perm_skip z IH)). apply perm_swap.
Qed.

Lemma order_by_score_desc_keeps_rows (b : backend)
    (l : list (QueueItem * option Z)) :
  Permutation (order_by_score_desc b l) l.
Proof.
  induction l as [|x l IH]; cbn; [apply perm_nil | ].
  apply (perm_trans (insert_by_score_keeps_rows b x _)).
  apply perm_skip. exact IH.
Qed.

Lemma filter_keeps_permutation {A : Type} (keep : A -> bool) (l l' : list A) :
  Permutation l l' -> Permutation (filter keep l) (filter keep l').
Proof.
  induction 1 as [| a l l' _ IH | a c l | l l' l'' _ IH1 _ IH2]; cbn.
  - apply perm_nil.
  - destruct (keep a); [apply perm_skip | ]; exact IH.
  - destruct (keep a), (keep c); try apply Permutation_refl. apply perm_swap.
  - exact (perm_trans IH1 IH2).
Qed.

Lemma queue_of_unordered_rows (d : DB) (p : Z) (items : list QueueItem) :
  map fst
    (filter (fun r => item_party (fst r) =? p)
       (map (fun it => (it, Sum_value d (item_id it)))
          (filter (fun it => match playing_start_time it with
                             | None => true
                             | Some _ => false
                             end) items)))
  = filter (is_queued_in p) items.
Proof.
  induction items as [|it items IH]; cbn; [reflexivity | ].
  unfold is_queued_in at 1.
  destruct (playing_start_time it); cbn; [exact IH | ].
  destruct (item_party it =? p); cbn; congruence.
Qed.

Lemma queue_keeps_queued_items (b : backend) (d : DB) (p : Z) :
  Permutation (queue b d p) (filter (is_queued_in p) (db_items d)).
Proof.
  rewrite <- (queue_of_unordered_rows d p (db_items d)).
  unfold queue, get_queryset. apply Permutation_map.
  apply filter_keeps_permutation, order_by_score_desc_keeps_rows.
Qed.

(** The queue of a party holds the items of the party that were never
    started, each once and no other item, and it is in the order of their
    scores, the score of an item being the sum of its votes or NULL. *)
Theorem queue_holds_queued_items_in_score_order (b : backend) (d : DB) (p : Z) :
  Permutation (queue b d p) (filter (is_queued_in p) (db_items d)) /\
  exists rows,
    queue b d p = map fst rows /\
    in_score_order b rows /\
    forall r, In r rows -> snd r = Sum_value d (item_id (fst r)).
Proof.
  split.
  - apply queue_keeps_queued_items.
  - exists (filter (fun r => item_party (fst r) =? p) (get_queryset b d)).
    split; [reflexivity | ]. split.
    + apply filter_in_score_order, order_by_score_desc_in_order.
    + intros r Hr. apply filter_In in Hr. destruct Hr as [Hr _].
      apply get_queryset_In in Hr. apply Hr.
Qed.

(** No item is selected exactly when the party has no item that was never
    started; [update_track] then leaves an idle party as it is. *)
Theorem get_next_none_iff_nothing_queued (b : backend) (d : DB) (p : Z) :
  get_next b d p = None <->
  forall it, In it (db_items d) -> item_party it = p ->
             playing_start_time it <> None.
Proof.
  pose proof (queue_keeps_queued_items b d p) as Hperm.
  unfold get_next. split.
  - intros Hnone it Hin Hparty Hstart.
    destruct (queue b d p) as [|x l] eqn:Hq; [ | discriminate].
    apply Permutation_nil in Hperm.
    assert (Hit : In it (filter (is_queued_in p) (db_items d))).
    { apply filter_In. split; [exact Hin | ]. unfold is_queued_in.
      rewrite Hstart. cbn. apply Z.eqb_eq. exact Hparty. }
    rewrite Hperm in Hit. destruct Hit.
  - intros Hall. destruct (queue b d p) as [|x l] eqn:Hq; [reflexivity | ].
    exfalso.
    assert (Hx : In x (filter (is_queued_in p) (db_items d))).
    { apply (Permutation_in x Hperm). left. reflexivity. }
    apply filter_In in Hx. destruct Hx as [Hin Hq'].
    unfold is_queued_in in Hq'. apply andb_true_iff in Hq'.
    destruct Hq' as [Hstart Hparty]. apply Z.eqb_eq in Hparty.
    apply (Hall x Hin Hparty).
    destruct (playing_start_time x); [discriminate | reflexivity].
Qed.

Lemma sum_values_by_sign (l : list UserVote) :
  sum_values (filter (fun vote => 0 <? value vote) l)
  + sum_values (filter (fun vote => value vote <? 0) l)
  = sum_values l /\
  0 <= sum_values (filter (fun vote => 0 <? value vote) l) /\
  sum_values (filter (fun vote => value vote <? 0) l) <= 0.
Proof.
  induction l as [|v l (IHsum & IHup & IHdown)]; cbn; [lia | ].
  unfold sum_values in *.
  destruct (0 <? value v) eqn:Eup, (value v <? 0) eqn:Edown; cbn;
    try apply Z.ltb_lt in Eup; try apply Z.ltb_ge in Eup;
    try apply Z.ltb_lt in Edown; try apply Z.ltb_ge in Edown; lia.
Qed.

Lemma vote_score_sum_values (d : DB) (it : QueueItem) :
  vote_score d it = sum_values (votes_of d (item_id it)).
Proof.
  unfold vote_score, Sum_value.
  destruct (votes_of d (item_id it)) as [|v l]; [reflexivity | ].
  destruct (sum_values (v :: l) =? 0) eqn:E; [ | reflexivity].
  apply Z.eqb_eq in E. congruence.
Qed.

Section PayloadProperties.

Variable username : Z -> Z.

(** The object of a queue item reports its votes by sign: the upvotes are a
    sum not below zero, the downvotes a sum not above zero, and together
    they are the vote score of the item. *)
Theorem to_object_splits_vote_score (d : DB) (it : QueueItem) :
  upvotes (to_object username d it) + downvotes (to_object username d it)
    = vote_score d it /\
  0 <= upvotes (to_object username d it) /\
  downvotes (to_object username d it) <= 0.
Proof.
  rewrite vote_score_sum_values. cbn. apply sum_values_by_sign.
Qed.

(** The queue payload of a party has one object per item of its queue, in
    the order of the queue; every object is the object of a stored item of
    the party that was never started, so the playing item is not listed. *)
Theorem get_queue_state_payload_lists_queue (b : backend) (d : DB) (p : Z) :
  map queue_entry_id (get_queue_state_payload username b d p)
    = map item_id (queue b d p) /\
  forall e, In e (get_queue_state_payload username b d p) ->
    exists it, In it (db_items d) /\ playing_start_time it = None /\
               item_party it = p /\ e = to_object username d it.
Proof.
  unfold get_queue_state_payload. split.
  - rewrite map_map. reflexivity.
  - intros e He. apply in_map_iff in He. destruct He as (it & <- & Hit).
    apply (Permutation_in it (queue_keeps_queued_items b d p)), filter_In in Hit.
    destruct Hit as [Hin Hq]. unfold is_queued_in in Hq.
    apply andb_true_iff in Hq. destruct Hq as [Hstart Hparty].
    exists it. repeat split.
    + exact Hin.
    + destruct (playing_start_time it); [discriminate | reflexivity].
    + apply Z.eqb_eq. exact Hparty.
Qed.

End PayloadProperties.

(** ** What a turn leaves alone *)

Lemma votes_come_from_refl (w : World) : votes_come_from w w.
Proof. intros v Hv. exact Hv. Qed.

Lemma votes_come_from_trans (w1 w2 w3 : World) :
  votes_come_from w1 w2 -> votes_come_from w2 w3 -> votes_come_from w1 w3.
Proof. intros H12 H23 v Hv. exact (H12 v (H23 v Hv)). Qed.

Lemma play_next_queue_item_votes (b : backend) (svc : Z -> outcome (option Z))
    (now : datetime) :
  respects votes_come_from (play_next_queue_item b svc now).
Proof.
  intros w o w'. rewrite play_next_queue_item_unfold. cbv zeta.
  assert (Hdel : forall i v,
            In v (db_votes (delete_item i (db w))) -> In v (db_votes (db w))).
  { intros i v Hv. cbn in Hv. apply filter_In in Hv. apply Hv. }
  destruct (get_next b (db w) (party_id (party w))) as [it|].
  - destruct (if negb (truthy (duration_ms it)) then svc (identifier it)
              else Ok (duration_ms it)) as [duration|e];
      intros H; injection H as _ <-; intros v Hv;
      destruct (playing_item (party w)) as [prev|]; cbn in Hv;
      rewrite ?save_item_votes in Hv; cbn in Hv;
      try exact Hv; exact (Hdel _ _ Hv).
  - intros H; injection H as _ <-; intros v Hv.
    destruct (playing_item (party w)) as [prev|]; cbn in Hv;
      try exact Hv; exact (Hdel _ _ Hv).
Qed.

Lemma maintain_party_votes (b : backend) (svc : Z -> outcome (option Z))
    (now : datetime) :
  respects votes_come_from (maintain_party b svc now).
Proof.
  apply respects_maintain_party.
  - exact votes_come_from_refl.
  - exact votes_come_from_trans.
  - intros w p v Hv. exact Hv.
  - apply play_next_queue_item_votes.
  - intros w v Hv. exact Hv.
  - intros now' w o w' H. injection H as _ <-. intros v Hv. exact Hv.
Qed.

(** A turn of the loop creates no vote and changes none, whether it raises
    or not: every vote stored after the turn was stored before it, and so
    for the whole run. *)
Theorem turn_creates_no_vote (b : backend) (svc : Z -> outcome (option Z))
    (clock : nat -> datetime) :
  (forall now w v,
     In v (db_votes (db (tick b svc now w))) -> In v (db_votes (db w))) /\
  (forall fuel n w w' m v,
     run b svc fuel clock n w = Some (w', m) ->
     In v (db_votes (db w')) -> In v (db_votes (db w))).
Proof.
  assert (Htick : forall now w, votes_come_from w (tick b svc now w)).
  { intros now w. unfold tick.
    destruct (maintain_party b svc now w) as [[[]|e] w'] eqn:H;
      apply maintain_party_votes in H; exact H. }
  split; [exact Htick | ].
  induction fuel as [|fuel IH]; intros n w w' m v Hrun Hv; cbn in Hrun.
  - destruct (keep_running w); [discriminate | ].
    injection Hrun as <- _. exact Hv.
  - destruct (keep_running w).
    + apply (Htick (clock n) w). exact (IH _ _ _ _ _ Hrun Hv).
    + injection Hrun as <- _. exact Hv.
Qed.

(** The turn of an idle party, one that plays nothing and has nothing
    queued, does not raise: it leaves the queue items and the votes as they
    are, deletes the stale presences, and stores this manager and the
    instant of the turn as owner and heartbeat. *)
Theorem maintain_party_idle (b : backend) (svc : Z -> outcome (option Z))
    (now : datetime) (w : World) :
  row_playing_item (db_party (db w)) = None ->
  get_next b (db w) (row_id (db_party (db w))) = None ->
  exists w',
    maintain_party b svc now w = (Ok tt, w') /\
    db_items (db w') = db_items (db w) /\
    db_votes (db w') = db_votes (db w) /\
    db_presences (db w') =
      filter (fun p => negb (stale now (row_id (db_party (db w))) p))
             (db_presences (db w)) /\
    db_party (db w') =
      {| row_id := row_id (db_party (db w)); row_playing_item := None;
         row_last_manager_uuid := Some (manager_uuid w);
         row_last_manager_check_in := Some now |}.
Proof.
  intros Hrow Hnext.
  assert (Hqueue : queue b (db w) (row_id (db_party (db w))) = []).
  { unfold get_next in Hnext.
    destruct (queue b (db w) (row_id (db_party (db w)))); [reflexivity | discriminate]. }
  unfold maintain_party, refresh_from_db, update_track, prune_users,
    update_party_manager_timestamp, bind, get, modify, ret.
  rewrite Hrow. cbn. rewrite Hqueue. cbn.
  eexists. split; [reflexivity | ]. cbn. repeat split.
Qed.

Lemma maintain_party_idle_witness :
  exists w',
    maintain_party NullsLast no_service the_instant (command_on 1 taken_over)
      = (Ok tt, w') /\
    db_party (db w') = party_row None (Some 1) (Some the_instant).
Proof.
  destruct (maintain_party_idle NullsLast no_service the_instant
              (command_on 1 taken_over) eq_refl eq_refl)
    as (w' & Hturn & _ & _ & _ & Hrow).
  exists w'. split; [exact Hturn | exact Hrow].
Defined.

(** ** The skip check within a turn *)






(** ** The claim at startup is not stored *)

Lemma lease_kept_refl (w : World) : lease_kept w w.
Proof. intros H. split; [exact H | reflexivity]. Qed.

Lemma lease_kept_trans (w1 w2 w3 : World) :
  lease_kept w1 w2 -> lease_kept w2 w3 -> lease_kept w1 w3.
Proof.
  intros H12 H23 H1. destruct (H12 H1) as [H2 E12].
  destruct (H23 H2) as [H3 E23]. split; [exact H3 | congruence].
Qed.

Lemma play_next_queue_item_lease (b : backend) (svc : Z -> outcome (option Z))
    (now : datetime) :
  respects lease_kept (play_next_queue_item b svc now).
Proof.
  intros w o w' H Hlease.
  rewrite play_next_queue_item_unfold in H. cbv zeta in H.
  unfold lease_of, lease_of_row in *.
  destruct (get_next b (db w) (party_id (party w))) as [it|].
  - destruct (if negb (truthy (duration_ms it)) then svc (identifier it)
              else Ok (duration_ms it)) as [duration|e];
      injection H as _ <-;
      destruct (playing_item (party w)) as [prev|]; cbn;
      try (destruct (row_playing_item (db_party (db w))) as [j|];
           [destruct (j =? item_id prev) | ]; cbn);
      split; first [exact Hlease | reflexivity].
  - injection H as _ <-.
    destruct (playing_item (party w)) as [prev|]; cbn;
      split; first [exact Hlease | reflexivity].
Qed.

Lemma update_track_lease (b : backend) (svc : Z -> outcome (option Z))
    (now : datetime) :
  respects lease_kept (update_track b svc now).
Proof.
  apply respects_update_track.
  - exact lease_kept_refl.
  - exact lease_kept_trans.
  - apply play_next_queue_item_lease.
Qed.

Lemma needs_new_manager_of_lease (now : datetime) (p p' : Party) :
  last_manager_check_in p = last_manager_check_in p' ->
  needs_new_manager now p = needs_new_manager now p'.
Proof. unfold needs_new_manager. intros ->. reflexivity. Qed.

(** C7 fails on the write. The decision is the claimed one: the claim
    succeeds when the stored heartbeat is absent or more than ten seconds
    old. But owner and heartbeat are set on the party object only and nothing
    is stored; the first turn reads the party again and the object loses
    them; and when that turn raises, the stored owner and heartbeat are as
    they were before the claim, the manager goes on running, and the claim of
    any other manager, at that instant or later, succeeds as well. *)
Theorem handle_claim_is_not_stored (b : backend) (svc : Z -> outcome (option Z))
    (uuid uuid' : UUID) (now now1 now' : datetime) (d : DB) :
  needs_new_manager now (load_party d) = true ->
  now <= now' ->
  (keep_running (handle_claim uuid now d) = true /\
   last_manager_uuid (party (handle_claim uuid now d)) = Some uuid /\
   last_manager_check_in (party (handle_claim uuid now d)) = Some now) /\
  db (handle_claim uuid now d) = d /\
  (forall w0, refresh_from_db (handle_claim uuid now d) = (Ok tt, w0) ->
     lease_of (party w0) = lease_of_row (db_party d)) /\
  (forall e w', maintain_party b svc now1 (handle_claim uuid now d) = (Raise e, w') ->
     lease_of_row (db_party (db w')) = lease_of_row (db_party d) /\
     tick b svc now1 (handle_claim uuid now d) = w' /\
     keep_running w' = true /\
     keep_running (handle_claim uuid' now' (db w')) = true).
Proof.
  intros Hfree Hle.
  destruct (handle_claim_keep_running uuid now d) as [Hkeep Hdb].
  rewrite Hfree in Hkeep.
  assert (Hobj : last_manager_uuid (party (handle_claim uuid now d)) = Some uuid /\
                 last_manager_check_in (party (handle_claim uuid now d)) = Some now).
  { exact (proj2 (proj2 (handle_claim_decision uuid now d)) Hkeep). }
  assert (Hread : forall w0,
            refresh_from_db (handle_claim uuid now d) = (Ok tt, w0) ->
            lease_of (party w0) = lease_of_row (db_party d)).
  { intros w0. unfold refresh_from_db, bind, get, modify, ret, raise.
    rewrite Hdb.
    destruct (row_playing_item (db_party d)) as [i|].
    - destruct (find _ _); intros H; [ | discriminate].
      injection H as <-. reflexivity.
    - intros H. injection H as <-. reflexivity. }
  split; [exact (conj Hkeep Hobj) | ]. split; [exact Hdb | ].
  split; [exact Hread | ].
  intros e w' Hturn.
  assert (Hstored : lease_of_row (db_party (db w')) = lease_of_row (db_party d) /\
                    keep_running w' = true).
  { pose proof Hturn as H. apply maintain_party_inv in H.
    destruct H as [(e0 & H0 & _) | (w0 & H0 & [(e0 & H1 & _) | (w1 & _ & Ho & _)])];
      [ | | discriminate].
    - destruct (refresh_from_db_inv _ _ _ H0) as (_ & _ & _ & _ & Hsame).
      rewrite (Hsame e0 eq_refl), Hdb. split; [reflexivity | exact Hkeep].
    - destruct (refresh_from_db_inv _ _ _ H0) as (Hdb0 & _ & Hk0 & _).
      pose proof (Hread w0 H0) as Hlease0.
      destruct (update_track_frame b svc now1 _ _ _ H1) as (_ & Hk1 & _).
      destruct (update_track_lease b svc now1 _ _ _ H1) as [_ Hrow].
      + rewrite Hdb0, Hdb. exact Hlease0.
      + rewrite Hrow, Hdb0, Hdb. split; [reflexivity | congruence]. }
  destruct Hstored as [Hstored Hrunning].
  split; [exact Hstored | ]. split; [unfold tick; rewrite Hturn; reflexivity | ].
  split; [exact Hrunning | ].
  rewrite (proj1 (handle_claim_keep_running uuid' now' (db w'))).
  rewrite (needs_new_manager_of_lease now' (load_party (db w')) (load_party d)).
  - exact (needs_new_manager_later now now' _ Hle Hfree).
  - change (row_last_manager_check_in (db_party (db w'))
            = row_last_manager_check_in (db_party d)).
    unfold lease_of_row in Hstored. congruence.
Qed.

Lemma handle_claim_is_not_stored_witness :
  keep_running (handle_claim 3 (seconds 110) zero_duration) = true /\
  lease_of_row (db_party (db (tick NullsLast no_service (seconds 110)
                                   (handle_claim 3 (seconds 110) zero_duration))))
    = (Some 1, Some (seconds 99)) /\
  keep_running (tick NullsLast no_service (seconds 110)
                     (handle_claim 3 (seconds 110) zero_duration)) = true /\
  keep_running (handle_claim 4 (seconds 111)
                  (db (tick NullsLast no_service (seconds 110)
                            (handle_claim 3 (seconds 110) zero_duration)))) = true.
Proof.
  destruct (handle_claim_is_not_stored NullsLast no_service 3 4
              (seconds 110) (seconds 110) (seconds 111) zero_duration
              eq_refl ltac:(unfold seconds; lia))
    as ((Hclaim & _) & _ & _ & Hraise).
  destruct (Hraise ZeroDivisionError
              (snd (maintain_party NullsLast no_service (seconds 110)
                      (handle_claim 3 (seconds 110) zero_duration)))
              eq_refl)
    as (Hstored & Htick & Hrunning & Hsecond).
  rewrite Htick.
  split; [exact Hclaim | ]. split; [exact Hstored | ].
  split; [exact Hrunning | exact Hsecond].
Defined.

(** ** Witnesses of earlier lemmas *)

Lemma tick_stops_only_when_empty_witness :
  user_count
    (db (tick NullsLast no_service (seconds 200) (command_on 1 taken_over)))
    (party_id (party (tick NullsLast no_service (seconds 200)
                        (command_on 1 taken_over)))) = 0.
Proof.
  apply (tick_stops_only_when_empty NullsLast no_service (seconds 200)
           (command_on 1 taken_over)); reflexivity.
Defined.

Lemma get_next_highest_score_among_voted_witness :
  exists it,
    get_next NullsFirst
      (set_presences
         {| db_party := party_row None None None;
            db_items := [track 1 None (Some 180000); track 2 None (Some 200000)];
            db_votes := [vote 1 1 (-1); vote 2 2 1; vote 3 2 1];
            db_presences := [] |} []) 1 = Some it /\
    item_id it = 2.
Proof.
  apply (get_next_highest_score_among_voted NullsFirst _ 1
           (track 2 None (Some 200000))).
  - right. left. reflexivity.
  - reflexivity.
  - reflexivity.
  - intros x [<- | [<- | []]] _ _; discriminate.
  - intros x [<- | [<- | []]] _ _ Hid; [reflexivity | contradiction].
Defined.
